(** * Wallet ledger: the transaction write path and its read paths

    A shallow embedding of the two service/repository stacks of the
    repository and the properties of the ledger they implement.

    - [TransactionService] (domain service) over [PostgresRepository],
      publishing through [EventPublisherMock];
    - [CreateTransactionService] (application service) over
      [PgTransactionWriteRepositoryAdapter] and
      [PgTransactionReadRepositoryAdapter], publishing through
      [EventPublisherSimulator].

    Conventions of the model.
    - A JavaScript number is an integer amount or [NaN]: arithmetic is
      exact, comparisons with [NaN] are false.  Rounding of binary
      floating point is not modelled.  The columns [amount] and [balance]
      are read back as such numbers.
    - A point in time (a [Date], its ISO-8601 text, a [timestamp] column)
      is an integer; [new Date()] and the column default read one clock,
      and each reading is later than the one before.
    - A thrown [Error] is its message.
    - [async] functions are programs over the actions they await (pool and
      client calls, console, clock, id generator); [run] executes such a
      program from a world, [Interleaving.step] executes one awaited
      action of one of several programs.
    - The store is PostgreSQL at its default isolation level: a statement
      sees what is committed and the writes of its own unit of work, and
      an [UPDATE] waits for the unit that holds the row.  A world carries
      the failures to inject into the coming store calls, so that a
      property over all worlds is a property over all failure plans. *)

From Stdlib Require Import ZArith Ascii String.
From stdpp Require Import gmap strings list sorting pretty.

Local Open Scope Z_scope.
Local Open Scope string_scope.

(** ** JavaScript values *)

Module JS.

Inductive number :=
| Fin (z : Z)
| NaN.

Inductive value :=
| Undefined
| Null
| Bool (b : bool)
| Num (n : number)
| Str (s : string).

#[global] Instance number_eq_dec : EqDecision number.
Proof. solve_decision. Defined.
#[global] Instance value_eq_dec : EqDecision value.
Proof. solve_decision. Defined.

(** [a + b], [a - b], [-a] on numbers. *)
Definition add (a b : number) : number :=
  match a, b with
  | Fin x, Fin y => Fin (x + y)
  | _, _ => NaN
  end.

Definition sub (a b : number) : number :=
  match a, b with
  | Fin x, Fin y => Fin (x - y)
  | _, _ => NaN
  end.

Definition neg (a : number) : number :=
  match a with
  | Fin x => Fin (- x)
  | NaN => NaN
  end.

(** [a > b], [a <= b] and [a < b] on numbers. *)
Definition gt (a b : number) : bool :=
  match a, b with
  | Fin x, Fin y => bool_decide (y < x)
  | _, _ => false
  end.

Definition le (a b : number) : bool :=
  match a, b with
  | Fin x, Fin y => bool_decide (x <= y)
  | _, _ => false
  end.

Definition lt (a b : number) : bool :=
  match a, b with
  | Fin x, Fin y => bool_decide (x < y)
  | _, _ => false
  end.

(** [!!v] *)
Definition truthy (v : value) : bool :=
  match v with
  | Undefined | Null => false
  | Bool b => b
  | Num (Fin z) => negb (bool_decide (z = 0))
  | Num NaN => false
  | Str s => negb (bool_decide (s = ""))
  end.

(** [typeof v] *)
Definition typeof (v : value) : string :=
  match v with
  | Undefined => "undefined"
  | Null => "object"
  | Bool _ => "boolean"
  | Num _ => "number"
  | Str _ => "string"
  end.

(** [xs.includes(v)], on values other than [NaN]. *)
Definition includes (xs : list value) (v : value) : bool :=
  bool_decide (v ∈ xs).

(** The string grammar of [Number(s)]: white space is trimmed, the empty
    string is [0], an optionally signed run of decimal digits is its
    value.  Every other text is [NaN]; literals with a fraction, an
    exponent or a radix prefix denote numbers outside the integer model. *)
Definition is_space (c : ascii) : bool :=
  let n := nat_of_ascii c in
  bool_decide (n = 32 ∨ (9 ≤ n ∧ n ≤ 13))%nat.

Definition digit (c : ascii) : option Z :=
  let n := nat_of_ascii c in
  if bool_decide (48 ≤ n ∧ n ≤ 57)%nat then Some (Z.of_nat (n - 48)) else None.

Fixpoint digits (acc : Z) (l : list ascii) : option Z :=
  match l with
  | [] => Some acc
  | c :: l' =>
      match digit c with
      | Some d => digits (10 * acc + d) l'
      | None => None
      end
  end.

Fixpoint trim_left (l : list ascii) : list ascii :=
  match l with
  | c :: l' => if is_space c then trim_left l' else l
  | [] => []
  end.

Definition trim (l : list ascii) : list ascii :=
  rev (trim_left (rev (trim_left l))).

Definition unsigned_literal (l : list ascii) : number :=
  match l with
  | [] => NaN
  | _ => match digits 0 l with Some z => Fin z | None => NaN end
  end.

Definition StringToNumber (s : string) : number :=
  match trim (list_ascii_of_string s) with
  | [] => Fin 0
  | "+"%char :: l => unsigned_literal l
  | "-"%char :: l => neg (unsigned_literal l)
  | l => unsigned_literal l
  end.

(** [Number(v)] *)
Definition Number (v : value) : number :=
  match v with
  | Undefined => NaN
  | Null => Fin 0
  | Bool b => Fin (if b then 1 else 0)
  | Num n => n
  | Str s => StringToNumber s
  end.

(** The text the driver sends for a query parameter ([null] and
    [undefined] are sent as SQL NULL, here the empty text). *)
Definition param_text (v : value) : string :=
  match v with
  | Undefined | Null => ""
  | Bool b => if b then "true" else "false"
  | Num (Fin z) => pretty z
  | Num NaN => "NaN"
  | Str s => s
  end.

End JS.

Import JS.

(** A thrown [Error]: its message. *)
Definition error := string.

(** ** The durable store *)

Module Schema.

(** A transaction id: supplied by the caller, or produced by the id
    generator ([uuidv4()], or the column default of the store). *)
Inductive txid :=
| Supplied (s : string)
| Generated (n : nat).

#[global] Instance txid_eq_dec : EqDecision txid.
Proof. solve_decision. Defined.

(** Modelled from the spec: the table declarations are not part of the
    sources.  The persisted schema is
    [transactions(id PK, userId, amount, type, timestamp)] and
    [users(userId PK, balance)]; the only constraints are the two primary
    keys. *)
Record transactions_row := {
  transaction_id : txid;
  user_id : string;
  amount : number;
  type : string;
  timestamp : Z;
}.

Record tables := {
  users : gmap string number;
  transactions : list transactions_row;
}.

(** The effects of an open unit of work that are not committed yet. *)
Record writes := {
  inserted : list transactions_row;
  balances : gmap string number;
}.

Definition no_writes : writes := {| inserted := []; balances := ∅ |}.

End Schema.

Import Schema.

Module Pg.

(** The statements the sources send, indexed by what [rows] holds. *)
Inductive sql : Type → Type :=
| BEGIN : sql unit
| COMMIT : sql unit
| ROLLBACK : sql unit
(* SELECT balance FROM users WHERE user_id = $1 *)
| SELECT_balance (user : string) : sql (list number)
(* INSERT INTO transactions (user_id, amount, type) VALUES ($1, $2, $3) RETURNING * *)
| INSERT_RETURNING (user : string) (amt : number) (ty : string) : sql transactions_row
(* INSERT INTO transactions(transaction_id, user_id, amount, type, timestamp) VALUES($1,$2,$3,$4,$5) *)
| INSERT (id : txid) (user : string) (amt : number) (ty : string) (ts : Z) : sql unit
(* UPDATE users SET balance=$1 WHERE user_id=$2 *)
| UPDATE_balance (new_balance : number) (user : string) : sql unit
(* UPDATE users SET balance = balance + $1 WHERE id = $2 *)
| UPDATE_balance_plus (amt : number) (user : string) : sql unit
(* UPDATE users SET balance = balance - $1 WHERE id = $2 *)
| UPDATE_balance_minus (amt : number) (user : string) : sql unit
(* SELECT * FROM transactions WHERE user_id = $1 ORDER BY timestamp DESC *)
| SELECT_transactions (user : string) : sql (list transactions_row)
(* ... ORDER BY timestamp DESC LIMIT $2 *)
| SELECT_transactions_LIMIT (user : string) (limit : nat) : sql (list transactions_row)
(* SELECT COALESCE(SUM(CASE ... END), 0) AS balance FROM transactions WHERE user_id = $1 *)
| SELECT_SUM (user : string) : sql number.

(** What a session sees: the committed tables under its own writes. *)
Definition visible (t : tables) (w : option writes) : tables :=
  match w with
  | None => t
  | Some w =>
      {| users := balances w ∪ users t;
         transactions := transactions t ++ inserted w |}
  end.

Definition apply_writes (t : tables) (w : writes) : tables :=
  visible t (Some w).

(** [WHERE user_id = $1] *)
Definition of_user (user : string) (rows : list transactions_row) : list transactions_row :=
  filter (λ r, user_id r = user) rows.

(** [ORDER BY timestamp DESC] *)
Definition newer_first (r1 r2 : transactions_row) : Prop :=
  (timestamp r2 ≤ timestamp r1)%Z.

#[global] Instance newer_first_dec r1 r2 : Decision (newer_first r1 r2).
Proof. unfold newer_first. apply _. Defined.

Definition order_by_timestamp_desc (rows : list transactions_row) : list transactions_row :=
  merge_sort newer_first rows.

(** [CASE WHEN type='deposit' THEN amount WHEN type='withdraw' THEN -amount ELSE 0 END] *)
Definition case_amount (r : transactions_row) : number :=
  if bool_decide (type r = "deposit") then amount r
  else if bool_decide (type r = "withdraw") then neg (amount r)
  else Fin 0.

(** [SUM(...)]: NULL over no rows. *)
Definition SUM (xs : list number) : option number :=
  match xs with
  | [] => None
  | x :: xs => Some (foldl add x xs)
  end.

(** [COALESCE(x, d)] *)
Definition COALESCE (x : option number) (d : number) : number :=
  match x with
  | Some n => n
  | None => d
  end.

Definition duplicate_key : error :=
  "duplicate key value violates unique constraint".

End Pg.

Import Pg.

(** ** Effects and programs *)

(** A published domain event: [{type | name, payload, occurredAt}]. *)
Record event := {
  name : string;
  payload : transactions_row;
  occurredAt : option Z;
}.

(** What a function of the sources can await or call on its collaborators. *)
Inductive action : Type → Type :=
| pool_query {R} (q : sql R) : action R
| pool_connect : action unit
| client_query {R} (q : sql R) : action R
| client_release : action unit
| console_log (level message : string) : action unit
| uuidv4 : action txid
| new_Date : action Z
| eventsMemory_push (ev : event) : action unit.

(** An [async] function body: it returns, throws, or awaits an action and
    goes on with its outcome. *)
Inductive prog (A : Type) : Type :=
| Ret (a : A)
| Throw (e : error)
| Do {R : Type} (a : action R) (k : error + R → prog A).

Arguments Ret {A} a.
Arguments Throw {A} e.
Arguments Do {A R} a k.

Fixpoint bind {A B} (p : prog A) (f : A → prog B) : prog B :=
  match p with
  | Ret a => f a
  | Throw e => Throw e
  | Do a k => Do a (λ r, bind (k r) f)
  end.

(** [try { p } catch (err) { h err }] *)
Fixpoint try_catch {A} (p : prog A) (h : error → prog A) : prog A :=
  match p with
  | Ret a => Ret a
  | Throw e => h e
  | Do a k => Do a (λ r, try_catch (k r) h)
  end.

(** [try { p } finally { f }] *)
Definition try_finally {A} (p : prog A) (f : prog unit) : prog A :=
  bind (try_catch (bind p (λ a, Ret (inr a))) (λ e, Ret (inl e)))
       (λ r : error + A,
          bind f (λ _, match r with inl e => Throw e | inr a => Ret a end)).

(** [await a]: a rejected call throws. *)
Definition await {R} (a : action R) : prog R :=
  Do a (λ r, match r with inl e => Throw e | inr x => Ret x end).

Declare Scope prog_scope.
Delimit Scope prog_scope with prog.
Notation "'let*' x := p 'in' q" := (bind p (λ x, q))
  (at level 10, x name, p at level 100, q at level 200) : prog_scope.
Local Open Scope prog_scope.

(** ** The world a program runs in *)

Record world := {
  db : tables;                     (* committed tables *)
  txn : option writes;             (* the open unit of the checked-out client *)
  idseq : nat;                     (* id generator *)
  clock : Z;                       (* each reading is later than the one before *)
  faults : list (option error);    (* failures injected into the coming store calls *)
  console : list (string * string);
  eventsMemory : list event;
}.

Definition with_db (w : world) (t : tables) (x : option writes) : world :=
  {| db := t; txn := x; idseq := idseq w; clock := clock w;
     faults := faults w; console := console w; eventsMemory := eventsMemory w |}.

Definition with_txn (w : world) (x : option writes) : world :=
  with_db w (db w) x.

Definition with_faults (w : world) (f : list (option error)) : world :=
  {| db := db w; txn := txn w; idseq := idseq w; clock := clock w;
     faults := f; console := console w; eventsMemory := eventsMemory w |}.

Definition tick (w : world) : world :=
  {| db := db w; txn := txn w; idseq := idseq w; clock := (clock w + 1)%Z;
     faults := faults w; console := console w; eventsMemory := eventsMemory w |}.

Definition next_id (w : world) : world :=
  {| db := db w; txn := txn w; idseq := S (idseq w); clock := clock w;
     faults := faults w; console := console w; eventsMemory := eventsMemory w |}.

Definition with_console (w : world) (l : list (string * string)) : world :=
  {| db := db w; txn := txn w; idseq := idseq w; clock := clock w;
     faults := faults w; console := l; eventsMemory := eventsMemory w |}.

Definition with_eventsMemory (w : world) (l : list event) : world :=
  {| db := db w; txn := txn w; idseq := idseq w; clock := clock w;
     faults := faults w; console := console w; eventsMemory := l |}.

Module Store.

(** A row of [users] is locked by every open unit that has updated it. *)
Definition locked (others : list writes) (user : string) : bool :=
  existsb (λ o, bool_decide (is_Some (balances o !! user))) others.

(** Writes of the acting session: kept in its open unit, or committed at
    once when no unit is open. *)
Definition record (w : world) (x : writes) : world :=
  match txn w with
  | Some _ => with_txn w (Some x)
  | None => with_db w (apply_writes (db w) x) None
  end.

(** The writes of the open unit, none when no unit is open. *)
Definition current (w : world) : writes := default no_writes (txn w).

(** [INSERT INTO transactions]: rejected when the primary key is taken. *)
Definition insert_row (row : transactions_row) (w : world) : option error * world :=
  let seen := visible (db w) (txn w) in
  if bool_decide (transaction_id row ∈ transaction_id <$> transactions seen)
  then (Some duplicate_key, w)
  else
    let cur := current w in
    (None, record w {| inserted := inserted cur ++ [row]; balances := balances cur |}).

(** [UPDATE users SET balance = f(balance) WHERE id = user]; [None] while
    another open unit holds the row. *)
Definition update_balance (others : list writes) (f : number → number) (user : string)
    (w : world) : option world :=
  let seen := visible (db w) (txn w) in
  match users seen !! user with
  | None => Some w
  | Some b =>
      if locked others user then None
      else
        let cur := current w in
        Some (record w {| inserted := inserted cur; balances := <[user := f b]> (balances cur) |})
  end.

(** One statement on the acting session. *)
Definition exec {R} (q : sql R) (others : list writes) (w : world)
    : option ((error + R) * world) :=
  let seen := visible (db w) (txn w) in
  match q in sql R return option ((error + R) * world) with
  | BEGIN => Some (inr (), with_txn w (Some (current w)))
  | COMMIT => Some (inr (), with_db w (apply_writes (db w) (current w)) None)
  | ROLLBACK => Some (inr (), with_txn w None)
  | SELECT_balance user =>
      Some (inr (match users seen !! user with Some b => [b] | None => [] end), w)
  | INSERT_RETURNING user amt ty =>
      let row := {| transaction_id := Generated (idseq w); user_id := user;
                    amount := amt; type := ty; timestamp := clock w |} in
      let w := tick (next_id w) in
      match insert_row row w with
      | (Some e, w) => Some (inl e, w)
      | (None, w) => Some (inr row, w)
      end
  | INSERT id user amt ty ts =>
      let row := {| transaction_id := id; user_id := user;
                    amount := amt; type := ty; timestamp := ts |} in
      match insert_row row w with
      | (Some e, w) => Some (inl e, w)
      | (None, w) => Some (inr (), w)
      end
  | UPDATE_balance new_balance user =>
      w ← update_balance others (λ _, new_balance) user w; Some (inr (), w)
  | UPDATE_balance_plus amt user =>
      w ← update_balance others (λ b, add b amt) user w; Some (inr (), w)
  | UPDATE_balance_minus amt user =>
      w ← update_balance others (λ b, sub b amt) user w; Some (inr (), w)
  | SELECT_transactions user =>
      Some (inr (order_by_timestamp_desc (of_user user (transactions seen))), w)
  | SELECT_transactions_LIMIT user limit =>
      Some (inr (take limit (order_by_timestamp_desc (of_user user (transactions seen)))), w)
  | SELECT_SUM user =>
      Some (inr (COALESCE (SUM (case_amount <$> of_user user (transactions seen))) (Fin 0)), w)
  end.

(** A store call first meets the next injected failure, if any: the call
    is rejected and has no effect.  [ROLLBACK] is not subject to them. *)
Definition injected (w : world) : option error * world :=
  match faults w with
  | [] => (None, w)
  | f :: fs => (f, with_faults w fs)
  end.

Definition is_rollback {R} (q : sql R) : bool :=
  match q with ROLLBACK => true | _ => false end.

End Store.

(** One action, by the program that holds the session [txn w]; [others]
    are the open units of the other sessions.  [None]: the action waits. *)
Definition perform {R} (a : action R) (others : list writes) (w : world)
    : option ((error + R) * world) :=
  match a in action R return option ((error + R) * world) with
  | pool_query q =>
      match Store.injected w with
      | (Some e, w) => Some (inl e, w)
      | (None, w) =>
          '(r, w') ← Store.exec q others (with_txn w None);
          Some (r, with_txn w' (txn w))
      end
  | pool_connect =>
      match Store.injected w with
      | (Some e, w) => Some (inl e, w)
      | (None, w) => Some (inr (), w)
      end
  | client_query q =>
      if Store.is_rollback q then Store.exec q others w
      else
        match Store.injected w with
        | (Some e, w) => Some (inl e, w)
        | (None, w) => Store.exec q others w
        end
  | client_release => Some (inr (), w)
  | console_log level message =>
      Some (inr (), with_console w (console w ++ [(level, message)]))
  | uuidv4 => Some (inr (Generated (idseq w)), next_id w)
  | new_Date => Some (inr (clock w), tick w)
  | eventsMemory_push ev =>
      Some (inr (), with_eventsMemory w (eventsMemory w ++ [ev]))
  end.

Definition lock_wait : error := "lock wait".

(** A program run on its own, to its end. *)
Fixpoint run {A} (p : prog A) (w : world) : (error + A) * world :=
  match p with
  | Ret a => (inr a, w)
  | Throw e => (inl e, w)
  | Do a k =>
      match perform a [] w with
      | Some (r, w') => run (k r) w'
      | None => (inl lock_wait, w)
      end
  end.

(** ** infrastructure/logger.js

    A log line is its level and message; the time stamp in front of it
    and the data after it are not kept. *)

Definition logInfo (message : string) : prog unit :=
  await (console_log "INFO" message).

Definition logError (message : string) : prog unit :=
  await (console_log "ERROR" message).

(** ** The collaborators the services are constructed with *)

Module Ports.

(** The argument [{ userId, amount, type }] of a repository write, typed
    as documented. *)
Record transaction := {
  userId : string;
  amount : number;
  type : string;
}.

Record Repository := {
  saveTransaction : transaction → prog transactions_row;
  getUserTransactions : string → prog (list transactions_row);
  getUserBalance : string → prog number;
}.

(** [writeRepo], with [write] for its [saveTransaction]. *)
Record WriteRepo := {
  write : transactions_row → prog unit;
}.

Record EventPublisher := {
  publish : event → prog unit;
}.

Record Logger := {
  info : string → prog unit;
}.

End Ports.

(** ** infrastructure/db/PostgresRepository.js *)

Module PostgresRepository.

Import Ports.

(** The body of [try { ... }]. *)
Definition try_block (t : transaction) : prog transactions_row :=
  let* _ := await (client_query BEGIN) in
  let* userRes := await (client_query (SELECT_balance (userId t))) in
  match userRes with
  | [] => Throw "User not found"
  | balance :: _ =>
      let* newBalance :=
        if bool_decide (type t = "deposit") then Ret (add balance (amount t))
        else if bool_decide (type t = "withdraw") then
          if gt (amount t) balance then Throw "Insufficient balance"
          else Ret (sub balance (amount t))
        else Throw "Invalid transaction type" in
      let* txRes :=
        await (client_query (INSERT_RETURNING (userId t) (amount t) (type t))) in
      let* _ := await (client_query (UPDATE_balance newBalance (userId t))) in
      let* _ := await (client_query COMMIT) in
      Ret txRes
  end.

(** [catch (err) { await client.query("ROLLBACK"); throw err; }] *)
Definition catch_block {A} (err : error) : prog A :=
  let* _ := await (client_query ROLLBACK) in
  Throw err.

(** [finally { client.release(); }] *)
Definition finally_block : prog unit :=
  await client_release.

Definition saveTransaction (t : transaction) : prog transactions_row :=
  let* client := await pool_connect in
  try_finally (try_catch (try_block t) catch_block) finally_block.

Definition getUserTransactions (userId : string) : prog (list transactions_row) :=
  await (pool_query (SELECT_transactions userId)).

Definition getUserBalance (userId : string) : prog number :=
  await (pool_query (SELECT_SUM userId)).

Definition repository : Repository :=
  {| Ports.saveTransaction := saveTransaction;
     Ports.getUserTransactions := getUserTransactions;
     Ports.getUserBalance := getUserBalance |}.

End PostgresRepository.

(** ** infrastructure/event/EventPublisherMock.js *)

Module EventPublisherMock.

Definition publish (ev : event) : prog unit :=
  await (console_log "LOG" "Event published (mock):").

Definition eventPublisher : Ports.EventPublisher :=
  {| Ports.publish := publish |}.

End EventPublisherMock.

(** ** domain/service/TransactionService.js *)

Module TransactionService.

(** The request body.  Only [userId], [amount] and [type] are read; [id]
    is the optional identifier a caller may add. *)
Record transactionData := {
  userId : value;
  amount : value;
  type : value;
  id : value;
}.

(** What the repository destructures from the object passed to it. *)
Definition destructure (d : transactionData) : Ports.transaction :=
  {| Ports.userId := param_text (userId d);
     Ports.amount := Number (amount d);
     Ports.type := param_text (type d) |}.

Section service.
Variable repository : Ports.Repository.
Variable eventPublisher : option Ports.EventPublisher.

Definition processTransaction (transactionData : transactionData) : prog transactions_row :=
  let userId := userId transactionData in
  let amount := amount transactionData in
  let type := type transactionData in
  if negb (truthy userId) || negb (bool_decide (typeof userId = "string")) then
    let* _ := logError "Invalid or missing userId" in
    Throw "Invalid or missing userId"
  else if negb (bool_decide (typeof amount = "number")) || le (Number amount) (Fin 0) then
    let* _ := logError "Amount must be positive" in
    Throw "Amount must be a positive number"
  else if negb (includes [Str "deposit"; Str "withdraw"] type) then
    let* _ := logError "Invalid transaction type" in
    Throw "Type must be either 'deposit' or 'withdraw'"
  else
    let* _ := logInfo "Processing transaction" in
    try_catch
      (let* _ :=
         if bool_decide (type = Str "withdraw") then
           let* currentBalance := Ports.getUserBalance repository (param_text userId) in
           if gt (Number amount) currentBalance then
             let* _ := logError "Insufficient balance for withdrawal" in
             Throw "Insufficient balance"
           else Ret ()
         else Ret () in
       let* savedTransaction :=
         Ports.saveTransaction repository (destructure transactionData) in
       let* _ :=
         match eventPublisher with
         | Some eventPublisher =>
             let* _ := Ports.publish eventPublisher
                                {| name := "TRANSACTION_PROCESSED";
                                  payload := savedTransaction;
                                  occurredAt := None |} in
             logInfo "Event published (mock)"
         | None => Ret ()
         end in
       Ret savedTransaction)
      (λ err,
         let* _ := logError "Error processing transaction" in
         Throw err).

Definition getUserTransactions (userId : value) : prog (list transactions_row) :=
  if negb (truthy userId) then
    let* _ := logError "UserId required for getUserTransactions" in
    Throw "UserId is required"
  else Ports.getUserTransactions repository (param_text userId).

Definition getUserBalance (userId : value) : prog number :=
  if negb (truthy userId) then
    let* _ := logError "UserId required for getUserBalance" in
    Throw "UserId is required"
  else Ports.getUserBalance repository (param_text userId).

End service.

End TransactionService.

(** ** adapter/persistence/write/pgTransactionWriteRepositoryAdapter.js *)

Module PgTransactionWriteRepositoryAdapter.

(** The body of [try { ... }]. *)
Definition try_block (tx : transactions_row) : prog unit :=
  let* _ := await (client_query BEGIN) in
  let* _ :=
    await (client_query
             (INSERT (transaction_id tx) (user_id tx) (Schema.amount tx)
                     (Schema.type tx) (timestamp tx))) in
  let* _ :=
    if bool_decide (Schema.type tx = "deposit") then
      await (client_query (UPDATE_balance_plus (Schema.amount tx) (user_id tx)))
    else
      await (client_query (UPDATE_balance_minus (Schema.amount tx) (user_id tx))) in
  let* _ := await (client_query COMMIT) in
  Ret ().

(** [catch (err) { await client.query('ROLLBACK'); throw err; }] *)
Definition catch_block {A} (err : error) : prog A :=
  let* _ := await (client_query ROLLBACK) in
  Throw err.

(** [finally { client.release(); }] *)
Definition finally_block : prog unit :=
  await client_release.

Definition saveTransaction (tx : transactions_row) : prog unit :=
  let* client := await pool_connect in
  try_finally (try_catch (try_block tx) catch_block) finally_block.

Definition writeRepo : Ports.WriteRepo :=
  {| Ports.write := saveTransaction |}.

End PgTransactionWriteRepositoryAdapter.

(** ** adapter/persistence/read/pgTransactionReadRepositoryAdapter.js *)

Module PgTransactionReadRepositoryAdapter.

Definition getTransactionsByUser (userId : string) (limit : option nat)
    : prog (list transactions_row) :=
  let limit := default 100%nat limit in
  await (pool_query (SELECT_transactions_LIMIT userId limit)).

Definition getBalanceByUser (userId : string) : prog value :=
  let* res := await (pool_query (SELECT_balance userId)) in
  match res with
  | balance :: _ => Ret (Num (Number (Num balance)))
  | [] => Ret Null
  end.

End PgTransactionReadRepositoryAdapter.

(** ** adapter/events/eventPublisherSimulator.js *)

Module EventPublisherSimulator.

Section simulator.
Variable logger : Ports.Logger.

Definition publish (ev : event) : prog unit :=
  let* _ := Ports.info logger "event_published" in
  await (eventsMemory_push ev).

Definition eventPublisher : Ports.EventPublisher :=
  {| Ports.publish := publish |}.

End simulator.


End EventPublisherSimulator.

(** ** domain/event/transactionCreatedEvent.js, domainEvent.js *)

Definition DomainEvent (name : string) (payload : transactions_row) : prog event :=
  let* occurredAt := await new_Date in
  Ret {| name := name; payload := payload; occurredAt := Some occurredAt |}.

Definition TransactionCreatedEvent (payload : transactions_row) : prog event :=
  DomainEvent "TransactionCreated" payload.

(** ** application/service/createTransactionService.js *)

Module CreateTransactionService.

Record command := {
  user_id : value;
  amount : value;
  type : value;
  transaction_id : value;
  timestamp : option Z;
}.

Section service.
Variable writeRepo : Ports.WriteRepo.
Variable eventPublisher : Ports.EventPublisher.
Variable logger : Ports.Logger.

(** The object [tx] built from a command, given the id and the time to
    use when the command carries none. *)
Definition tx_of (command : command) (id : txid) (now : Z) : transactions_row :=
  {| Schema.transaction_id := id;
     Schema.user_id := param_text (user_id command);
     Schema.amount := Number (amount command);
     Schema.type := param_text (type command);
     Schema.timestamp := now |}.

(** [// Construcción del objeto transacción] *)
Definition build (command : command) : prog transactions_row :=
  let* id :=
    if truthy (transaction_id command)
    then Ret (Supplied (param_text (transaction_id command)))
    else await uuidv4 in
  let* now :=
    match timestamp command with
    | Some t => Ret t
    | None => await new_Date
    end in
  Ret (tx_of command id now).

(** [execute] below its validations: persist, publish, log, return. *)
Definition create (command : command) : prog transactions_row :=
  let* tx := build command in
  let* _ := Ports.write writeRepo tx in
  let* event := TransactionCreatedEvent tx in
  let* _ := Ports.publish eventPublisher event in
  let* _ := Ports.info logger "transaction_created" in
  Ret tx.

Definition execute (command : command) : prog transactions_row :=
  if negb (truthy (user_id command)) then Throw "user_id required"
  else if negb (truthy (amount command)) || le (Number (amount command)) (Fin 0) then
    Throw "amount must be positive"
  else if negb (includes [Str "deposit"; Str "withdraw"] (type command)) then
    Throw "invalid type"
  else create command.

End service.

End CreateTransactionService.

(** ** domain/model/user.js *)

Module User.

Record user := {
  id : string;
  name : string;
  balance : number;
}.


(** [deposit(amount)]: the user after it, or the error thrown. *)
Definition deposit (this : user) (amount : number) : error + user :=
  if le amount (Fin 0) then inl "amount must be positive"
  else inr {| id := id this; name := name this;
              balance := add (balance this) (Number (Num amount)) |}.

(** [withdraw(amount)] *)
Definition withdraw (this : user) (amount : number) : error + user :=
  if le amount (Fin 0) then inl "amount must be positive"
  else if gt amount (balance this) then inl "insufficient funds"
  else inr {| id := id this; name := name this;
              balance := sub (balance this) (Number (Num amount)) |}.

End User.

(** ** What the entry points answer *)

Module Http.

(** The object an entry point serialises into its answer (through
    [JSON.stringify] or [res.json]); the JSON text is not modelled. *)
Inductive json :=
| error_json (error : string)                        (* { error } *)
| transaction_json (tx : transactions_row)           (* tx *)
| balance_transactions_json (balance : value)
    (transactions : list transactions_row)           (* { balance, transactions } *)
| status_ok_json (result : transactions_row)         (* { status: "ok", result } *)
| transactions_json (transactions : list transactions_row)  (* { transactions } *)
| balance_json (balance : number).                   (* { balance } *)

Record response := {
  statusCode : Z;
  body : json;
}.

End Http.

(** ** The wiring of the two entry points *)

(** infrastructure/server/localServer.js *)
Module localServer.

Definition repository := PostgresRepository.repository.
Definition eventPublisher := EventPublisherMock.eventPublisher.

Definition processTransaction :=
  TransactionService.processTransaction repository (Some eventPublisher).
Definition getUserTransactions := TransactionService.getUserTransactions repository.
Definition getUserBalance := TransactionService.getUserBalance repository.

(** [app.post("/transaction", ...)], on the parsed request body.
    [console.error(err)] is the line [("error", err)]. *)
Definition post_transaction (body : TransactionService.transactionData)
    : prog Http.response :=
  try_catch
    (let* result := processTransaction body in
     Ret {| Http.statusCode := 200; Http.body := Http.status_ok_json result |})
    (λ err,
       let* _ := logError "Failed to process transaction" in
       let* _ := await (console_log "error" err) in
       Ret {| Http.statusCode := 500; Http.body := Http.error_json err |}).

(** [app.get("/transactions/:userId", ...)], on [req.params.userId]. *)
Definition get_transactions (userId : string) : prog Http.response :=
  try_catch
    (let* transactions := getUserTransactions (Str userId) in
     Ret {| Http.statusCode := 200; Http.body := Http.transactions_json transactions |})
    (λ err,
       let* _ := logError "Failed to process transaction" in
       let* _ := await (console_log "error" err) in
       Ret {| Http.statusCode := 500; Http.body := Http.error_json err |}).

(** [app.get("/balance/:userId", ...)], on [req.params.userId]. *)
Definition get_balance (userId : string) : prog Http.response :=
  try_catch
    (let* balance := getUserBalance (Str userId) in
     Ret {| Http.statusCode := 200; Http.body := Http.balance_json balance |})
    (λ err,
       let* _ := logError "Failed to process transaction" in
       let* _ := await (console_log "error" err) in
       Ret {| Http.statusCode := 500; Http.body := Http.error_json err |}).

End localServer.

(** adapter/rest/transactionLambdaHandler.js *)
Module transactionLambdaHandler.

(** Modelled from the spec: the logger object of this stack (with [info]
    and [error]) is not part of the sources; logging is glue outside the
    ledger core, here a line on the console. *)
Definition logger : Ports.Logger :=
  {| Ports.info := λ message, await (console_log "info" message) |}.

Definition writeRepo := PgTransactionWriteRepositoryAdapter.writeRepo.
Definition eventPublisher := EventPublisherSimulator.eventPublisher logger.

Definition execute :=
  CreateTransactionService.execute writeRepo eventPublisher logger.

(** Modelled from the spec: [logger.error] of the same logger object, a
    line on the console. *)
Definition logger_error (message : string) : prog unit :=
  await (console_log "error" message).

(** What [service.execute] can be called with: an object, by the fields
    [execute] reads of it, or [null] or [undefined]. *)
Inductive argument :=
| object (command : CreateTransactionService.command)
| null
| undefined.

(** [event.body]: a JSON text or a value that is no string. *)
Inductive event_body :=
| text (s : string)
| parsed (a : argument).

(** The message of the [TypeError] for reading [property] of [null] or
    [undefined]. *)
Definition TypeError_reading (what property : string) : error :=
  "Cannot read properties of " +:+ what +:+ " (reading '" +:+ property +:+ "')".

(** [service.execute(body)]: reading [command.user_id] throws when [body]
    is no object. *)
Definition service_execute (body : argument) : prog transactions_row :=
  match body with
  | object command => execute command
  | null => Throw (TypeError_reading "null" "user_id")
  | undefined => Throw (TypeError_reading "undefined" "user_id")
  end.

Section handler.

(** [JSON.parse]: the value a text denotes, or the message of its
    [SyntaxError].  A number, string, boolean or array is an object
    without the fields [execute] reads. *)
Variable JSON_parse : string → error + argument.

(** [exports.handler], on [event.body]. *)
Definition handler (body : event_body) : prog Http.response :=
  try_catch
    (let* body :=
       match body with
       | text s =>
           match JSON_parse s with
           | inl e => Throw e
           | inr a => Ret a
           end
       | parsed a => Ret a
       end in
     let* result := service_execute body in
     Ret {| Http.statusCode := 201; Http.body := Http.transaction_json result |})
    (λ err,
       let* _ := logger_error "transaction_error" in
       Ret {| Http.statusCode := 400; Http.body := Http.error_json err |}).

End handler.

End transactionLambdaHandler.

(** adapter/rest/queryLambdaHandler.js *)
Module queryLambdaHandler.

(** [exports.handler], on [event.pathParameters]: [None] when the event
    has none, else their [user_id]. *)
Definition handler (pathParameters : option value) : prog Http.response :=
  try_catch
    (let userId := default Undefined pathParameters in
     if negb (truthy userId) then
       Ret {| Http.statusCode := 400; Http.body := Http.error_json "user_id required" |}
     else
       let* transactions :=
         PgTransactionReadRepositoryAdapter.getTransactionsByUser (param_text userId) None in
       let* balance :=
         PgTransactionReadRepositoryAdapter.getBalanceByUser (param_text userId) in
       Ret {| Http.statusCode := 200;
              Http.body := Http.balance_transactions_json balance transactions |})
    (λ err,
       let* _ := transactionLambdaHandler.logger_error "query_error" in
       Ret {| Http.statusCode := 500; Http.body := Http.error_json err |}).

End queryLambdaHandler.

(** ** Several programs at once *)

Module Interleaving.

(** A caller in flight: what is left of its program and the unit of work
    its client holds open. *)
Record client (A : Type) := {
  code : prog A;
  session : option writes;
}.
Arguments code {A} c.
Arguments session {A} c.

Record state (A : Type) := {
  shared : world;
  clients : list (client A);
}.
Arguments shared {A} s.
Arguments clients {A} s.

Definition start {A} (w : world) (ps : list (prog A)) : state A :=
  {| shared := w; clients := (λ p, {| code := p; session := None |}) <$> ps |}.

(** The units the callers other than [i] hold open. *)
Definition others {A} (i : nat) (cs : list (client A)) : list writes :=
  omap session (take i cs ++ drop (S i) cs)%list.

(** Caller [i] performs the action it awaits, or waits on a row lock. *)
Definition step {A} (st : state A) (i : nat) : state A :=
  match clients st !! i with
  | Some c =>
      match code c with
      | Do a k =>
          match perform a (others i (clients st)) (with_txn (shared st) (session c)) with
          | Some (r, w') =>
              {| shared := with_txn w' None;
                 clients := <[i := {| code := k r; session := txn w' |}]> (clients st) |}
          | None => st
          end
      | _ => st
      end
  | None => st
  end.

Definition schedule {A} (st : state A) (order : list nat) : state A :=
  foldl step st order.

(** How caller [i] ended, if it has. *)
Definition outcome {A} (st : state A) (i : nat) : option (error + A) :=
  match code <$> clients st !! i with
  | Some (Ret a) => Some (inr a)
  | Some (Throw e) => Some (inl e)
  | _ => None
  end.

End Interleaving.

(** ** Notions the properties are stated with *)




(** A call of [process]: through the domain service or through the
    application service, each wired as its entry point wires it. *)
Inductive call :=
| ProcessTransaction (transactionData : TransactionService.transactionData)
| Execute (command : CreateTransactionService.command).

Definition process (c : call) : prog transactions_row :=
  match c with
  | ProcessTransaction transactionData => localServer.processTransaction transactionData
  | Execute command => transactionLambdaHandler.execute command
  end.

(** A sequence of calls, all of them successful. *)
Fixpoint process_all (cs : list call) (w : world) : option world :=
  match cs with
  | [] => Some w
  | c :: cs =>
      match run (process c) w with
      | (inr _, w') => process_all cs w'
      | (inl _, _) => None
      end
  end.

(** The signed amount of a recorded transaction: [+amount] for a deposit,
    [-amount] for a withdrawal. *)
Definition signed_amount (r : transactions_row) : option number :=
  if bool_decide (Schema.type r = "deposit") then Some (Schema.amount r)
  else if bool_decide (Schema.type r = "withdraw") then Some (neg (Schema.amount r))
  else None.

Fixpoint sum_signed (history : list transactions_row) : option number :=
  match history with
  | [] => Some (Fin 0)
  | r :: history =>
      a ← signed_amount r;
      s ← sum_signed history;
      Some (add a s)
  end.

Definition known_type (ty : string) : Prop :=
  ty = "deposit" ∨ ty = "withdraw".

(** Every action of a program satisfies [P]. *)
Inductive performs (P : ∀ R, action R → Prop) {A} : prog A → Prop :=
| performs_Ret a : performs P (Ret a)
| performs_Throw e : performs P (Throw e)
| performs_Do R (a : action R) k :
    P R a → (∀ r, performs P (k r)) → performs P (Do a k).

Definition inserts_known_type {R} (q : sql R) : Prop :=
  match q with
  | INSERT_RETURNING _ _ ty => known_type ty
  | INSERT _ _ _ ty _ => known_type ty
  | _ => True
  end.

Definition records_known_types (R : Type) (a : action R) : Prop :=
  match a with
  | pool_query q => inserts_known_type q
  | client_query q => inserts_known_type q
  | _ => True
  end.

(** Every stored row, committed or pending, is a deposit or a withdrawal. *)
Definition ledger_types (w : world) : Prop :=
  Forall (λ r, known_type (Schema.type r)) (transactions (db w)) ∧
  ∀ x, txn w = Some x → Forall (λ r, known_type (Schema.type r)) (inserted x).

(** The world after a unit appended [row] and set a balance. *)
Definition appended (w : world) (row : transactions_row) (user : string)
    (new_balance : number) : world :=
  {| db := {| users := <[user := new_balance]> (users (db w));
              transactions := transactions (db w) ++ [row] |};
     txn := None; idseq := idseq w; clock := clock w;
     faults := faults w; console := console w; eventsMemory := eventsMemory w |}.

(** A ledger with one user and no transaction. *)
Definition ledger (user : string) (balance : Z) : world :=
  {| db := {| users := {[user := Fin balance]}; transactions := [] |};
     txn := None; idseq := 0; clock := 0;
     faults := []; console := []; eventsMemory := [] |}.

(** What the specification asks of the validation of [process], in its
    words: in this order, [userId] missing or not a string, [amount] not
    a positive number, [type] not in [{deposit, withdraw}]. *)
Inductive ValidationError :=
| userId_required
| amount_must_be_positive
| invalid_type.

Definition nonempty_string (v : value) : bool :=
  match v with
  | Str s => negb (bool_decide (s = ""))
  | _ => false
  end.

Definition positive_number (v : value) : bool :=
  match v with
  | Num (Fin z) => bool_decide (0 < z)%Z
  | _ => false
  end.

Definition spec_validation (userId amount type : value) : option ValidationError :=
  if negb (nonempty_string userId) then Some userId_required
  else if negb (positive_number amount) then Some amount_must_be_positive
  else if negb (includes [Str "deposit"; Str "withdraw"] type) then Some invalid_type
  else None.

(** The error [processTransaction] throws for each, and the line it logs. *)
Definition thrown (k : ValidationError) : error :=
  match k with
  | userId_required => "Invalid or missing userId"
  | amount_must_be_positive => "Amount must be a positive number"
  | invalid_type => "Type must be either 'deposit' or 'withdraw'"
  end.

Definition logged (k : ValidationError) : string :=
  match k with
  | userId_required => "Invalid or missing userId"
  | amount_must_be_positive => "Amount must be positive"
  | invalid_type => "Invalid transaction type"
  end.


(** [{ userId: "u1", amount, type }] for the domain service. *)
Definition request (amount : value) (type : string) (id : value)
    : TransactionService.transactionData :=
  {| TransactionService.userId := Str "u1";
     TransactionService.amount := amount;
     TransactionService.type := Str type;
     TransactionService.id := id |}.

(** [{ user_id: "u1", amount, type, transaction_id, timestamp: 1 }] for
    the application service. *)
Definition command_of (amount : value) (type : string) (transaction_id : value)
    : CreateTransactionService.command :=
  {| CreateTransactionService.user_id := Str "u1";
     CreateTransactionService.amount := amount;
     CreateTransactionService.type := Str type;
     CreateTransactionService.transaction_id := transaction_id;
     CreateTransactionService.timestamp := Some 1%Z |}.


(** The commands that pass the three validations of [execute]. *)
Definition execute_accepts (command : CreateTransactionService.command) : bool :=
  truthy (CreateTransactionService.user_id command) &&
  negb (negb (truthy (CreateTransactionService.amount command))
        || le (Number (CreateTransactionService.amount command)) (Fin 0)) &&
  includes [Str "deposit"; Str "withdraw"] (CreateTransactionService.type command).

(** Scenario: deposit 100 and withdraw 40 through the domain service,
    then deposit 5 through the application service. *)
Definition scenario : list call :=
  [ProcessTransaction (request (Num (Fin 100)) "deposit" Undefined);
   ProcessTransaction (request (Num (Fin 40)) "withdraw" Undefined);
   Execute (command_of (Num (Fin 5)) "deposit" (Str "t1"))].

Definition after_scenario : world :=
  default (ledger "u1" 0) (process_all scenario (ledger "u1" 0)).

(** A withdrawal of 150. *)
Definition withdraw_150 : Ports.transaction :=
  {| Ports.userId := "u1"; Ports.amount := Fin 150; Ports.type := "withdraw" |}.

(** A deposit of 100 under the caller's id ["t1"]. *)
Definition deposit_t1 : transactions_row :=
  {| transaction_id := Supplied "t1"; user_id := "u1"; Schema.amount := Fin 100;
     Schema.type := "deposit"; timestamp := 1 |}.

(** The ledger of ["u1"] after [deposit_t1] was written. *)
Definition funded : world :=
  (run (PgTransactionWriteRepositoryAdapter.saveTransaction deposit_t1) (ledger "u1" 0)).2.


(** The balance the recorded transactions of a user add up to, as the
    query of [getUserBalance] computes it. *)
Definition derived_balance (user : string) (t : tables) : number :=
  COALESCE (SUM (case_amount <$> of_user user (transactions t))) (Fin 0).

(** The tables after [row] was appended and its signed amount was added
    to the balance row of its user, if there is one. *)
Definition applied (t : tables) (row : transactions_row) : tables :=
  {| users := alter (λ b, add b (case_amount row)) (user_id row) (users t);
     transactions := transactions t ++ [row] |}.

(** Every balance row holds what the transactions of its user add up to. *)
Definition balances_agree (t : tables) : Prop :=
  ∀ user b, users t !! user = Some b → b = derived_balance user t.

(** No balance row is below zero. *)
Definition no_negative_balance (t : tables) : Prop :=
  ∀ user b, users t !! user = Some b → lt b (Fin 0) = false.

(** The user a call names. *)
Definition user_of (c : call) : string :=
  match c with
  | ProcessTransaction transactionData =>
      param_text (TransactionService.userId transactionData)
  | Execute command => param_text (CreateTransactionService.user_id command)
  end.

(** The world after a sequence of calls, whether they succeed or fail. *)
Definition after (cs : list call) (w : world) : world :=
  foldl (λ w c, (run (process c) w).2) w cs.

(** The id generator of the store is ahead of the ids in the table. *)
Definition fresh_ids (w : world) : Prop :=
  ∀ n, (idseq w ≤ n)%nat → Generated n ∉ transaction_id <$> transactions (db w).

(** The two operations of the aggregate [User]. *)
Inductive operation :=
| Deposit (amount : number)
| Withdraw (amount : number).

Definition operand (o : operation) : number :=
  match o with Deposit a | Withdraw a => a end.

Definition perform_operation (u : User.user) (o : operation) : error + User.user :=
  match o with
  | Deposit a => User.deposit u a
  | Withdraw a => User.withdraw u a
  end.


(** The request to the domain service for an operation of [user]. *)
Definition request_of (user : string) (o : operation)
    : TransactionService.transactionData :=
  {| TransactionService.userId := Str user;
     TransactionService.amount := Num (operand o);
     TransactionService.type :=
       Str (match o with Deposit _ => "deposit" | Withdraw _ => "withdraw" end);
     TransactionService.id := Undefined |}.

(** A write of a type the services do not know. *)
Definition refund_30 : transactions_row :=
  {| transaction_id := Supplied "t9"; user_id := "u1"; Schema.amount := Fin 30;
     Schema.type := "refund"; timestamp := 1 |}.

(** A deposit for a user without a balance row. *)
Definition deposit_for_stranger : transactions_row :=
  {| transaction_id := Supplied "t9"; user_id := "u2"; Schema.amount := Fin 30;
     Schema.type := "deposit"; timestamp := 1 |}.

(** A withdrawal of 100 under the caller's id ["t2"]. *)
Definition withdraw_t2 : transactions_row :=
  {| transaction_id := Supplied "t2"; user_id := "u1"; Schema.amount := Fin 100;
     Schema.type := "withdraw"; timestamp := 2 |}.

(** The ledger of ["u1"] after a deposit of 100 through the domain service. *)
Definition deposited : world :=
  (run (localServer.processTransaction (request (Num (Fin 100)) "deposit" Undefined))
       (ledger "u1" 0)).2.

(** A deposit, a withdrawal within the balance and one above it. *)
Definition three_requests : list TransactionService.transactionData :=
  [request (Num (Fin 100)) "deposit" Undefined;
   request (Num (Fin 40)) "withdraw" Undefined;
   request (Num (Fin 500)) "withdraw" Undefined].



(** A ledger with one user, whose balance is any number, and no
    transaction. *)
Definition ledger_with (user : string) (balance : number) : world :=
  {| db := {| users := {[user := balance]}; transactions := [] |};
     txn := None; idseq := 0; clock := 0;
     faults := []; console := []; eventsMemory := [] |}.

(** Two callers of the write adapter at once, for one user: where they
    can stand.  A caller has six actions to perform (connect, [BEGIN],
    [INSERT], [UPDATE], [COMMIT], release); [first] tells which of the
    two updated the balance row first, once one of them has. *)
Module TwoWriters.

Record position := {
  done0 : nat;
  done1 : nat;
  first : bool;
}.

(** A schedule that leads to a position: the caller that updated first
    takes all its turns, then the other. *)
Definition canonical (p : position) : list nat :=
  if first p then (replicate (done1 p) 1%nat ++ replicate (done0 p) 0%nat)%list
  else (replicate (done0 p) 0%nat ++ replicate (done1 p) 1%nat)%list.

(** The position after a turn of caller [i]: it stays where it is when
    it has ended, and when it is about to update the row that the other
    caller has updated and not yet committed. *)
Definition advance (p : position) (i : nat) : position :=
  let mine := if bool_decide (i = 0%nat) then done0 p else done1 p in
  let other := if bool_decide (i = 0%nat) then done1 p else done0 p in
  let moved (f : bool) :=
    if bool_decide (i = 0%nat)
    then {| done0 := S mine; done1 := other; first := f |}
    else {| done0 := other; done1 := S mine; first := f |} in
  if bool_decide (mine = 6%nat) then p
  else if bool_decide (mine = 3%nat) then
    if bool_decide (other = 4%nat) then p
    else moved (if bool_decide (5 ≤ other)%nat then bool_decide (i = 0%nat)
                else bool_decide (i = 1%nat))
  else moved (first p).

(** The positions two callers can be in: a caller is past its [UPDATE]
    only when it was the first to update or the first has committed. *)
Definition reachable (p : position) : bool :=
  let pf := if first p then done1 p else done0 p in
  let po := if first p then done0 p else done1 p in
  bool_decide (pf ≤ 6)%nat && bool_decide (po ≤ 6)%nat &&
  (bool_decide (po ≤ 3)%nat || bool_decide (5 ≤ pf)%nat) &&
  (bool_decide (4 ≤ pf)%nat || negb (first p)).

Section writers.
Variables (b a1 a2 : number) (deposit1 deposit2 : bool).

Definition tx1 : transactions_row :=
  {| transaction_id := Supplied "t1"; user_id := "u1"; Schema.amount := a1;
     Schema.type := if deposit1 then "deposit" else "withdraw"; timestamp := 1 |}.

Definition tx2 : transactions_row :=
  {| transaction_id := Supplied "t2"; user_id := "u1"; Schema.amount := a2;
     Schema.type := if deposit2 then "deposit" else "withdraw"; timestamp := 2 |}.

Definition writers : Interleaving.state unit :=
  Interleaving.start (ledger_with "u1" b)
    [PgTransactionWriteRepositoryAdapter.saveTransaction tx1;
     PgTransactionWriteRepositoryAdapter.saveTransaction tx2].

Definition at_position (p : position) : Interleaving.state unit :=
  Interleaving.schedule writers (canonical p).

(** The balance after the write of [tx1], of [tx2]. *)
Definition change1 (x : number) : number := if deposit1 then add x a1 else sub x a1.
Definition change2 (x : number) : number := if deposit2 then add x a2 else sub x a2.

(** Turns that let both callers finish from wherever they are. *)
Definition enough_turns : list nat :=
  (replicate 6 0%nat ++ replicate 6 1%nat ++ replicate 6 0%nat)%list.

End writers.
End TwoWriters.

(** * Properties *)

(** ** Coercions *)

Lemma Number_of_strings :
  Number (Str "100") = Fin 100 ∧
  Number (Str " -42 ") = Fin (-42) ∧
  Number (Str "") = Fin 0 ∧
  Number (Str "abc") = NaN ∧
  Number (Str "12px") = NaN.
Proof. repeat split. Qed.

Lemma le_NaN n : le NaN n = false ∧ le n NaN = false.
Proof. by destruct n. Qed.

Lemma truthy_falsy :
  truthy (Str "0") = true ∧ truthy (Str "") = false ∧
  truthy (Num (Fin 0)) = false ∧ truthy (Num NaN) = false ∧
  truthy Null = false ∧ truthy Undefined = false.
Proof. repeat split. Qed.

(** ** Running programs *)

Lemma update_balance_alone f user w :
  is_Some (Store.update_balance [] f user w).
Proof.
  unfold Store.update_balance. simpl.
  destruct (users (visible (db w) (txn w)) !! user); eauto.
Qed.

Lemma exec_alone {R} (q : sql R) w : is_Some (Store.exec q [] w).
Proof.
  destruct q; simpl; eauto.
  - destruct (Store.insert_row _ _) as [[e|] w']; eauto.
  - destruct (Store.insert_row _ _) as [[e|] w']; eauto.
  - destruct (update_balance_alone (λ _, new_balance) user w) as [w' ->]; simpl; eauto.
  - destruct (update_balance_alone (λ b, add b amt) user w) as [w' ->]; simpl; eauto.
  - destruct (update_balance_alone (λ b, sub b amt) user w) as [w' ->]; simpl; eauto.
Qed.

(** A program run on its own never waits. *)
Lemma perform_alone {R} (a : action R) w : is_Some (perform a [] w).
Proof.
  destruct a; simpl; eauto.
  - destruct (Store.injected w) as [[e|] w1]; eauto.
    destruct (exec_alone q (with_txn w1 None)) as [[r w2] ->]; simpl; eauto.
  - destruct (Store.injected w) as [[e|] w1]; eauto.
  - destruct (Store.is_rollback q); [apply exec_alone|].
    destruct (Store.injected w) as [[e|] w1]; eauto using exec_alone.
Qed.

Lemma run_bind {A B} (p : prog A) (f : A → prog B) w :
  run (bind p f) w =
  match run p w with
  | (inl e, w') => (inl e, w')
  | (inr a, w') => run (f a) w'
  end.
Proof.
  revert w. induction p as [a|e|R a k IH]; intros w; simpl; try done.
  destruct (perform a [] w) as [[r w']|]; auto.
Qed.

Lemma run_try_catch {A} (p : prog A) (h : error → prog A) w :
  run (try_catch p h) w =
  match run p w with
  | (inl e, w') => run (h e) w'
  | (inr a, w') => (inr a, w')
  end.
Proof.
  revert w. induction p as [a|e|R a k IH]; intros w; simpl; try done.
  destruct (perform_alone a w) as [[r w'] ->]. auto.
Qed.

Lemma run_await {R} (a : action R) w :
  run (await a) w =
  match perform a [] w with
  | Some (r, w') => (r, w')
  | None => (inl lock_wait, w)
  end.
Proof.
  unfold await. simpl. destruct (perform a [] w) as [[[e|x] w']|]; done.
Qed.

Lemma run_try_finally {A} (p : prog A) (f : prog unit) w :
  run (try_finally p f) w =
  let '(r, w1) := run p w in
  match run f w1 with
  | (inl e, w2) => (inl e, w2)
  | (inr _, w2) => (r, w2)
  end.
Proof.
  unfold try_finally.
  rewrite run_bind, run_try_catch, run_bind.
  destruct (run p w) as [[e|a] w1]; simpl;
    rewrite run_bind; destruct (run f w1) as [[e'|[]] w2]; done.
Qed.

(** ** Units of work *)

Lemma injected_spec w :
  ∃ fs, Store.injected w = (None, with_faults w fs) ∨
        ∃ e, Store.injected w = (Some e, with_faults w fs).
Proof.
  unfold Store.injected. destruct w as [d x i c [|[e|] fs] l m]; simpl; eauto.
Qed.






Lemma run_rollback_rethrow {A} (err : error) w :
  run (let* _ := await (client_query ROLLBACK) in @Throw A err) w
  = (inl err, with_txn w None).
Proof. reflexivity. Qed.

Lemma run_release w : run (await client_release) w = (inr (), w).
Proof. reflexivity. Qed.

(** [try { p } catch (err) { ROLLBACK; throw err } finally { release }] *)
Lemma run_guarded {A} (p : prog A) w :
  run (try_finally
         (try_catch p (λ err, let* _ := await (client_query ROLLBACK) in Throw err))
         (await client_release)) w
  = match run p w with
    | (inl e, w') => (inl e, with_txn w' None)
    | (inr a, w') => (inr a, w')
    end.
Proof.
  rewrite run_try_finally, run_try_catch.
  destruct (run p w) as [[e|a] w']; [rewrite run_rollback_rethrow|];
    by rewrite run_release.
Qed.















(** ** Programs whose actions all satisfy a predicate *)

Section performs.
Context (P : ∀ R, action R → Prop).

Lemma performs_bind {A B} (p : prog A) (f : A → prog B) :
  performs P p → (∀ a, performs P (f a)) → performs P (bind p f).
Proof.
  intros Hp Hf. induction Hp as [a|e|R a k Ha Hk IH]; simpl; auto.
  - constructor.
  - constructor; auto.
Qed.

Lemma performs_bind_Ret {A B} (a : A) (f : A → prog B) :
  performs P (f a) → performs P (bind (Ret a) f).
Proof. done. Qed.

Lemma performs_bind_Throw {A B} e (f : A → prog B) :
  performs P (bind (Throw e) f).
Proof. constructor. Qed.

Lemma performs_inv {A} (p : prog A) :
  performs P p →
  match p with
  | Do a k => P _ a ∧ ∀ r, performs P (k r)
  | _ => True
  end.
Proof. destruct 1; auto. Qed.

Lemma performs_bind_assoc {A B C} (p : prog A) (f : A → prog B) (g : B → prog C) :
  performs P (bind p (λ x, bind (f x) g)) → performs P (bind (bind p f) g).
Proof.
  induction p as [a|e|R a k IH]; simpl; [done|done|].
  intros [Ha Hk]%performs_inv.
  constructor; [done|]. intros r. apply IH, Hk.
Qed.

Lemma performs_try_catch {A} (p : prog A) (h : error → prog A) :
  performs P p → (∀ e, performs P (h e)) → performs P (try_catch p h).
Proof.
  intros Hp Hh. induction Hp as [a|e|R a k Ha Hk IH]; simpl; auto.
  - constructor.
  - constructor; auto.
Qed.

Lemma performs_await {R} (a : action R) : P R a → performs P (await a).
Proof. intros Ha. constructor; [done|]. intros [e|x]; constructor. Qed.

Lemma performs_try_finally {A} (p : prog A) (f : prog unit) :
  performs P p → performs P f → performs P (try_finally p f).
Proof.
  intros Hp Hf. unfold try_finally.
  apply performs_bind.
  - apply performs_try_catch; [|intros e; constructor].
    apply performs_bind; [done|]. intros a. constructor.
  - intros r. apply performs_bind; [done|]. intros _. destruct r; constructor.
Qed.

(** An invariant of every action that satisfies [P] is an invariant of
    the run of a program that performs only such actions. *)
Lemma performs_run (I : world → Prop) {A} (p : prog A) :
  (∀ R (a : action R) w r w', P R a → I w → perform a [] w = Some (r, w') → I w') →
  performs P p → ∀ w, I w → I (run p w).2.
Proof.
  intros Hstep. induction 1 as [a|e|R a k Ha Hk IH]; intros w Hw; simpl; try done.
  destruct (perform a [] w) as [[r w']|] eqn:E; [|done].
  eapply IH, Hstep; eauto.
Qed.

End performs.

(** ** Only deposits and withdrawals are recorded *)

Lemma ledger_types_ext w1 w2 :
  db w1 = db w2 → txn w1 = txn w2 → ledger_types w1 → ledger_types w2.
Proof. unfold ledger_types. by intros -> ->. Qed.

Lemma current_ledger_types w :
  ledger_types w → Forall (λ r, known_type (Schema.type r)) (inserted (Store.current w)).
Proof.
  intros [_ H]. unfold Store.current. destruct (txn w) as [x|]; simpl; auto.
Qed.

Lemma record_ledger_types w x :
  ledger_types w → Forall (λ r, known_type (Schema.type r)) (inserted x) →
  ledger_types (Store.record w x).
Proof.
  intros [Hdb Hx] Hins. unfold Store.record, ledger_types.
  destruct (txn w); simpl.
  - split; [done|]. by intros ? [= <-].
  - split; [|done]. by apply Forall_app.
Qed.

Lemma insert_row_ledger_types row w o w' :
  known_type (Schema.type row) → ledger_types w →
  Store.insert_row row w = (o, w') → ledger_types w'.
Proof.
  intros Hrow Hw. unfold Store.insert_row.
  case_bool_decide; intros [= <- <-]; [done|].
  apply record_ledger_types; [done|]. simpl.
  apply Forall_app. split; [by apply current_ledger_types|].
  constructor; [done|constructor].
Qed.

Lemma update_balance_ledger_types f user w w' :
  ledger_types w → Store.update_balance [] f user w = Some w' → ledger_types w'.
Proof.
  intros Hw. unfold Store.update_balance. simpl.
  destruct (users _ !! user); intros [= <-]; [|done].
  apply record_ledger_types; [done|]. simpl. by apply current_ledger_types.
Qed.

Lemma exec_ledger_types {R} (q : sql R) w r w' :
  inserts_known_type q → ledger_types w →
  Store.exec q [] w = Some (r, w') → ledger_types w'.
Proof.
  intros Hq Hw. destruct q; simpl.
  - intros [= <- <-]. destruct Hw as [Hdb Hx]. split; [done|]. simpl.
    intros ? [= <-]. by apply current_ledger_types.
  - intros [= <- <-]. split; [|done]. simpl. apply Forall_app.
    split; [apply Hw|by apply current_ledger_types].
  - intros [= <- <-]. split; [apply Hw|done].
  - intros [= <- <-]. done.
  - destruct (Store.insert_row _ _) as [[e|] w1] eqn:E; intros [= <- <-];
      (eapply insert_row_ledger_types; [| |exact E]; [exact Hq|];
       eapply ledger_types_ext; [| |exact Hw]; done).
  - destruct (Store.insert_row _ _) as [[e|] w1] eqn:E; intros [= <- <-];
      (eapply insert_row_ledger_types; [| |exact E]; [exact Hq|done]).
  - destruct (Store.update_balance _ _ _ _) as [w1|] eqn:E; simpl; [|done].
    intros [= <- <-]. by eapply update_balance_ledger_types.
  - destruct (Store.update_balance _ _ _ _) as [w1|] eqn:E; simpl; [|done].
    intros [= <- <-]. by eapply update_balance_ledger_types.
  - destruct (Store.update_balance _ _ _ _) as [w1|] eqn:E; simpl; [|done].
    intros [= <- <-]. by eapply update_balance_ledger_types.
  - intros [= <- <-]. done.
  - intros [= <- <-]. done.
  - intros [= <- <-]. done.
Qed.

Lemma injected_ledger_types w o w' :
  Store.injected w = (o, w') → ledger_types w → ledger_types w'.
Proof.
  destruct (injected_spec w) as (fs & [-> | [e ->]]); intros [= <- <-];
    apply ledger_types_ext; done.
Qed.

Lemma perform_ledger_types R (a : action R) w r w' :
  records_known_types R a → ledger_types w →
  perform a [] w = Some (r, w') → ledger_types w'.
Proof.
  intros Ha Hw. destruct a; simpl.
  - destruct (Store.injected w) as [[e|] w1] eqn:Ei.
    + intros [= <- <-]. by eapply injected_ledger_types.
    + destruct (Store.exec q [] (with_txn w1 None)) as [[r1 w2]|] eqn:E; simpl; [|done].
      intros [= <- <-].
      eapply injected_ledger_types in Ei as Hw1; [|done].
      eapply exec_ledger_types in E; [|exact Ha|split; [apply Hw1|done]].
      split; [apply E|apply Hw1].
  - destruct (Store.injected w) as [[e|] w1] eqn:Ei;
      intros [= <- <-]; by eapply injected_ledger_types.
  - destruct (Store.is_rollback q).
    + intros E. by eapply exec_ledger_types.
    + destruct (Store.injected w) as [[e|] w1] eqn:Ei.
      * intros [= <- <-]. by eapply injected_ledger_types.
      * intros E. eapply exec_ledger_types; [done| |exact E].
        by eapply injected_ledger_types.
  - intros [= <- <-]. done.
  - intros [= <- <-]. done.
  - intros [= <- <-]. done.
  - intros [= <- <-]. done.
  - intros [= <- <-]. done.
Qed.

Ltac performs_step :=
  match goal with
  | |- performs _ (bind (bind _ _) _) => apply performs_bind_assoc
  | |- performs _ (bind (if bool_decide _ then _ else _) _) => case_bool_decide
  | |- performs _ (bind (if ?b then _ else _) _) => destruct b eqn:?
  | |- performs _ (bind (Ret _) _) => apply performs_bind_Ret
  | |- performs _ (bind (Throw _) _) => apply performs_bind_Throw
  | |- performs _ (bind _ _) => apply performs_bind
  | |- performs _ (try_catch _ _) => apply performs_try_catch
  | |- performs _ (try_finally _ _) => apply performs_try_finally
  | |- performs _ (await _) => apply performs_await
  | |- performs _ (Ret _) => constructor
  | |- performs _ (Throw _) => constructor
  | |- performs _ (if bool_decide _ then _ else _) => case_bool_decide
  | |- performs _ (if ?b then _ else _) => destruct b eqn:?
  | |- performs _ (match ?x with _ => _ end) => destruct x eqn:?
  | |- ∀ _, _ => intro
  end.

Lemma PostgresRepository_saveTransaction_types t :
  performs records_known_types (PostgresRepository.saveTransaction t).
Proof.
  unfold PostgresRepository.saveTransaction, PostgresRepository.try_block,
    PostgresRepository.catch_block, PostgresRepository.finally_block.
  repeat performs_step; simpl; try done; unfold known_type; auto.
Qed.

Lemma PostgresRepository_reads_types user :
  performs records_known_types (PostgresRepository.getUserBalance user) ∧
  performs records_known_types (PostgresRepository.getUserTransactions user).
Proof.
  unfold PostgresRepository.getUserBalance, PostgresRepository.getUserTransactions.
  split; repeat performs_step; exact I.
Qed.

Lemma processTransaction_types transactionData :
  performs records_known_types (localServer.processTransaction transactionData).
Proof.
  unfold localServer.processTransaction, TransactionService.processTransaction,
    logInfo, logError.
  repeat performs_step; simpl; try done;
    try apply PostgresRepository_saveTransaction_types;
    try apply PostgresRepository_reads_types;
    unfold EventPublisherMock.publish; repeat performs_step; exact I.
Qed.

Lemma includes_known_type v :
  includes [Str "deposit"; Str "withdraw"] v = true → known_type (param_text v).
Proof.
  unfold includes. intros H%bool_decide_eq_true.
  apply list_elem_of_In in H. destruct H as [<-|[<-|[]]]; [by left|by right].
Qed.

Lemma PgTransactionWriteRepositoryAdapter_saveTransaction_types tx :
  known_type (Schema.type tx) →
  performs records_known_types (PgTransactionWriteRepositoryAdapter.saveTransaction tx).
Proof.
  intros Htx.
  unfold PgTransactionWriteRepositoryAdapter.saveTransaction,
    PgTransactionWriteRepositoryAdapter.try_block,
    PgTransactionWriteRepositoryAdapter.catch_block,
    PgTransactionWriteRepositoryAdapter.finally_block.
  repeat performs_step; simpl; done.
Qed.

Lemma execute_types command :
  performs records_known_types (transactionLambdaHandler.execute command).
Proof.
  unfold transactionLambdaHandler.execute, CreateTransactionService.execute,
    CreateTransactionService.create, CreateTransactionService.build.
  destruct (negb (truthy _)); [constructor|].
  destruct (_ || _); [constructor|].
  destruct (includes _ _) eqn:Hty; cbn [negb]; [|constructor].
  apply includes_known_type in Hty.
  unfold TransactionCreatedEvent, DomainEvent, transactionLambdaHandler.eventPublisher,
    EventPublisherSimulator.eventPublisher, EventPublisherSimulator.publish,
    transactionLambdaHandler.logger, transactionLambdaHandler.writeRepo,
    PgTransactionWriteRepositoryAdapter.writeRepo.
  cbn [Ports.write Ports.publish Ports.info].
  repeat performs_step; try exact I;
    by apply PgTransactionWriteRepositoryAdapter_saveTransaction_types.
Qed.

(** Started from a ledger without transactions, successful calls leave
    only deposits and withdrawals in it. *)
Lemma process_all_types calls : ∀ w0 w,
  ledger_types w0 → process_all calls w0 = Some w → ledger_types w.
Proof.
  induction calls as [|c calls IH]; intros w0 w Hw0; simpl.
  - by intros [= <-].
  - destruct (run (process c) w0) as [[e|row] w1] eqn:E; [done|].
    apply IH.
    assert (ledger_types (run (process c) w0).2) as Hw1; [|by rewrite E in Hw1].
    apply (performs_run records_known_types ledger_types);
      [apply perform_ledger_types| |done].
    destruct c; [apply processTransaction_types|apply execute_types].
Qed.

(** ** The derived balance and the history *)

Lemma add_comm a b : add a b = add b a.
Proof. destruct a, b; simpl; f_equal; lia. Qed.

Lemma add_assoc a b c : add a (add b c) = add (add a b) c.
Proof. destruct a, b, c; simpl; f_equal; lia. Qed.

Lemma add_0_r a : add a (Fin 0) = a.
Proof. destruct a; simpl; f_equal; lia. Qed.

Lemma foldl_add a xs : foldl add a xs = add a (foldr add (Fin 0) xs).
Proof.
  revert a. induction xs as [|x xs IH]; intros a; simpl.
  - by rewrite add_0_r.
  - by rewrite IH, add_assoc.
Qed.

Lemma COALESCE_SUM xs : COALESCE (SUM xs) (Fin 0) = foldr add (Fin 0) xs.
Proof. destruct xs as [|x xs]; simpl; [done|apply foldl_add]. Qed.

Lemma foldr_add_Permutation xs ys :
  xs ≡ₚ ys → foldr add (Fin 0) xs = foldr add (Fin 0) ys.
Proof.
  intros H. apply (foldr_permutation_proper (=) add (Fin 0)); [|done].
  intros a1 a2 b. by rewrite !add_assoc, (add_comm a1 a2).
Qed.

Lemma sum_signed_known history :
  Forall (λ r, known_type (Schema.type r)) history →
  sum_signed history = Some (foldr add (Fin 0) (case_amount <$> history)).
Proof.
  induction 1 as [|r history Hr _ IH]; simpl; [done|].
  rewrite IH. unfold signed_amount, case_amount.
  destruct Hr as [-> | ->]; done.
Qed.

Lemma run_PostgresRepository_getUserBalance user w :
  faults w = [] →
  run (PostgresRepository.getUserBalance user) w
  = (inr (COALESCE (SUM (case_amount <$> of_user user (transactions (db w)))) (Fin 0)), w).
Proof. destruct w; simpl. by intros ->. Qed.

Lemma run_PostgresRepository_getUserTransactions user w :
  faults w = [] →
  run (PostgresRepository.getUserTransactions user) w
  = (inr (order_by_timestamp_desc (of_user user (transactions (db w)))), w).
Proof. destruct w; simpl. by intros ->. Qed.

Lemma truthy_Str user : user ≠ "" → truthy (Str user) = true.
Proof. intros H. simpl. by rewrite bool_decide_eq_false_2. Qed.

(** C1.  Balance consistency.  Start from a ledger without transactions
    and make any sequence of successful [process] calls, each through
    [TransactionService.processTransaction] or through
    [CreateTransactionService.execute].  Then for every (non-empty)
    [userId],
    [getBalance(userId)] is the sum over the transactions that
    [getHistory(userId)] returns of [+amount] for a deposit and [-amount]
    for a withdrawal (every returned transaction is one or the other).
    The two reads are the ones of [TransactionService], with no failure
    injected into them. *)
Theorem balance_is_sum_of_history (w0 w : world) (calls : list call) (userId : string) :
  transactions (db w0) = [] →
  txn w0 = None →
  process_all calls w0 = Some w →
  userId ≠ "" →
  faults w = [] →
  ∃ balance history,
    run (localServer.getUserBalance (Str userId)) w = (inr balance, w) ∧
    run (localServer.getUserTransactions (Str userId)) w = (inr history, w) ∧
    sum_signed history = Some balance.
Proof.
  intros Hempty Hx Hcalls Huser Hfaults.
  assert (ledger_types w) as [Hdb _].
  { eapply process_all_types; [|exact Hcalls].
    split; [rewrite Hempty; constructor|]. rewrite Hx. done. }
  eexists _, _. unfold localServer.getUserBalance, localServer.getUserTransactions,
    TransactionService.getUserBalance, TransactionService.getUserTransactions.
  rewrite (truthy_Str _ Huser). simpl negb. cbv iota.
  split; [by apply run_PostgresRepository_getUserBalance|].
  split; [by apply run_PostgresRepository_getUserTransactions|].
  unfold order_by_timestamp_desc.
  rewrite sum_signed_known.
  - rewrite COALESCE_SUM. f_equal. apply foldr_add_Permutation.
    by rewrite merge_sort_Permutation.
  - rewrite merge_sort_Permutation. unfold of_user.
    apply Forall_forall. intros r [_ Hr]%list_elem_of_filter.
    by eapply Forall_forall in Hdb.
Qed.

(** ** The write paths when no failure is injected *)

Lemma visible_no_writes d : visible d (Some no_writes) = d.
Proof.
  destruct d as [us txs]. unfold visible, no_writes. simpl.
  f_equal; [apply (left_id_L ∅ (∪))|apply app_nil_r].
Qed.

Lemma visible_users_inserted d rows :
  users (visible d (Some {| inserted := rows; balances := ∅ |})) = users d.
Proof. simpl. apply (left_id_L ∅ (∪)). Qed.

Lemma singleton_union_insert (user : string) (b : number) (us : gmap string number) :
  <[user := b]> (∅ : gmap string number) ∪ us = <[user := b]> us.
Proof. by rewrite <- insert_union_l, (left_id_L ∅ (∪)). Qed.

Lemma run_Ret {A} (a : A) w : run (Ret a) w = (inr a, w).
Proof. reflexivity. Qed.

Lemma run_Throw {A} e w : run (@Throw A e) w = (inl e, w).
Proof. reflexivity. Qed.

Ltac run_step :=
  rewrite ?run_guarded, ?run_bind, ?run_await, ?run_Ret, ?run_Throw;
  cbn [perform Store.is_rollback Store.exec];
  unfold Store.injected, Store.insert_row, Store.update_balance, Store.record,
    Store.current, Store.locked, tick, next_id, with_txn, with_db, with_faults,
    apply_writes;
  cbn [db txn idseq clock faults console eventsMemory from_option id existsb
       mbind option_bind];
  rewrite ?visible_no_writes;
  unfold no_writes;
  cbn [inserted balances app transaction_id];
  cbv beta iota.

(** Case analysis on the failure injected into the next store call. *)
Ltac fault_cases :=
  match goal with
  | |- context [match ?f with [] => _ | _ :: _ => _ end] =>
      is_var f; destruct f as [|[?|] ?]
  end.

(** Run a program to its end over every fault plan and store content. *)
Ltac crunch :=
  repeat first
    [ progress run_step
    | fault_cases
    | progress rewrite ?visible_users_inserted
    | match goal with
      | |- context [bool_decide (?x ∈ ?l)] => destruct (bool_decide (x ∈ l)) eqn:?
      | |- context [bool_decide (?x = ?y)] => destruct (bool_decide (x = y)) eqn:?
      | |- context [if gt ?a ?b then _ else _] => destruct (gt a b) eqn:?
      | |- context [match users ?d !! ?u with _ => _ end] =>
          destruct (users d !! u) eqn:?
      end ].

Lemma PostgresRepository_saveTransaction_spec (t : Ports.transaction) (w : world) :
  txn w = None → faults w = [] →
  run (PostgresRepository.saveTransaction t) w =
  match users (db w) !! Ports.userId t with
  | None => (inl "User not found", w)
  | Some balance =>
      let row := {| transaction_id := Generated (idseq w); user_id := Ports.userId t;
                    Schema.amount := Ports.amount t; Schema.type := Ports.type t;
                    timestamp := clock w |} in
      let commit new_balance :=
        if bool_decide (Generated (idseq w) ∈ transaction_id <$> transactions (db w))
        then (inl duplicate_key, tick (next_id w))
        else (inr row, appended (tick (next_id w)) row (Ports.userId t) new_balance) in
      if bool_decide (Ports.type t = "deposit") then commit (add balance (Ports.amount t))
      else if bool_decide (Ports.type t = "withdraw") then
        if gt (Ports.amount t) balance then (inl "Insufficient balance", w)
        else commit (sub balance (Ports.amount t))
      else (inl "Invalid transaction type", w)
  end.
Proof.
  destruct w as [d x i c f l m]. intros Hx Hf. simpl in Hx, Hf. subst.
  unfold PostgresRepository.saveTransaction, PostgresRepository.try_block,
    PostgresRepository.catch_block, PostgresRepository.finally_block.
  do 3 run_step.
  destruct (users d !! Ports.userId t) as [balance|] eqn:Hu; [|done].
  cbv zeta.
  assert (∀ new_balance,
    run (let* txRes :=
           await (client_query (INSERT_RETURNING (Ports.userId t) (Ports.amount t) (Ports.type t))) in
         let* _ := await (client_query (UPDATE_balance new_balance (Ports.userId t))) in
         let* _ := await (client_query COMMIT) in Ret txRes)
        {| db := d; txn := Some {| inserted := []; balances := ∅ |};
           idseq := i; clock := c; faults := []; console := l; eventsMemory := m |}
    = if bool_decide (Generated i ∈ transaction_id <$> transactions d)
      then (inl duplicate_key,
            {| db := d; txn := Some {| inserted := []; balances := ∅ |};
               idseq := S i; clock := c + 1; faults := [];
               console := l; eventsMemory := m |})
      else (inr {| transaction_id := Generated i; user_id := Ports.userId t;
                   Schema.amount := Ports.amount t; Schema.type := Ports.type t;
                   timestamp := c |},
            {| db := {| users := <[Ports.userId t := new_balance]> (users d);
                        transactions := transactions d ++
                          [{| transaction_id := Generated i; user_id := Ports.userId t;
                              Schema.amount := Ports.amount t; Schema.type := Ports.type t;
                              timestamp := c |}] |};
               txn := None; idseq := S i; clock := c + 1; faults := [];
               console := l; eventsMemory := m |})) as Hcommit.
  { intros new_balance. run_step.
    case_bool_decide; [done|].
    run_step. rewrite visible_users_inserted, Hu.
    cbn [mbind option_bind]. run_step.
    unfold visible. cbn [inserted balances users transactions].
    by rewrite singleton_union_insert. }
  destruct (bool_decide (Ports.type t = "deposit")).
  - change (bind (Ret ?a) ?f) with (f a). cbv beta. rewrite Hcommit.
    by case_bool_decide.
  - destruct (bool_decide (Ports.type t = "withdraw")); [|done].
    destruct (gt _ _); [done|].
    change (bind (Ret ?a) ?f) with (f a). cbv beta. rewrite Hcommit.
    by case_bool_decide.
Qed.

Lemma alter_present (f : number → number) (user : string) (b : number)
    (us : gmap string number) :
  us !! user = Some b → alter f user us = <[user := f b]> us.
Proof.
  intros Hu. apply map_eq. intros k. rewrite lookup_alter, lookup_insert.
  case_decide; [subst; by rewrite Hu|done].
Qed.

Lemma alter_absent (f : number → number) (user : string) (us : gmap string number) :
  us !! user = None → alter f user us = us.
Proof.
  intros Hu. apply map_eq. intros k. rewrite lookup_alter.
  case_decide; [subst; by rewrite Hu|done].
Qed.

Lemma PgTransactionWriteRepositoryAdapter_saveTransaction_spec (tx : transactions_row)
    (w : world) :
  txn w = None → faults w = [] →
  run (PgTransactionWriteRepositoryAdapter.saveTransaction tx) w =
  if bool_decide (transaction_id tx ∈ transaction_id <$> transactions (db w))
  then (inl duplicate_key, w)
  else
    let change b :=
      if bool_decide (Schema.type tx = "deposit") then add b (Schema.amount tx)
      else sub b (Schema.amount tx) in
    (inr (),
     with_db w {| users := alter change (user_id tx) (users (db w));
                  transactions := transactions (db w) ++ [tx] |} None).
Proof.
  destruct w as [d x i c f l m]. intros Hx Hf. simpl in Hx, Hf. subst.
  unfold PgTransactionWriteRepositoryAdapter.saveTransaction,
    PgTransactionWriteRepositoryAdapter.try_block,
    PgTransactionWriteRepositoryAdapter.catch_block,
    PgTransactionWriteRepositoryAdapter.finally_block.
  do 3 run_step.
  destruct (bool_decide (transaction_id tx ∈ transaction_id <$> transactions d)); [done|].
  cbv zeta. destruct tx as [id user amt ty ts]. cbn [Schema.type Schema.amount user_id].
  destruct (bool_decide (ty = "deposit")).
  - run_step. rewrite visible_users_inserted.
    destruct (users d !! user) as [b|] eqn:Hu; cbn [mbind option_bind]; run_step;
      unfold visible; cbn [inserted balances users transactions]; do 3 f_equal.
    + by rewrite singleton_union_insert, (alter_present _ _ b).
    + by rewrite (left_id_L ∅ (∪)), alter_absent.
  - run_step. rewrite visible_users_inserted.
    destruct (users d !! user) as [b|] eqn:Hu; cbn [mbind option_bind]; run_step;
      unfold visible; cbn [inserted balances users transactions]; do 3 f_equal.
    + by rewrite singleton_union_insert, (alter_present _ _ b).
    + by rewrite (left_id_L ∅ (∪)), alter_absent.
Qed.

(** ** Withdrawals and the balance *)

(** C2, the code at a failing input.  On an empty ledger, [execute]
    deposits 100 and then withdraws 150.  The withdrawal exceeds the
    balance, yet it completes without throwing: the write through
    [PgTransactionWriteRepositoryAdapter.saveTransaction] has no
    insufficient-funds check.  Afterwards the stored balance and the
    balance derived from the transactions are both [-50]. *)
Theorem write_adapter_overdraws :
  let deposit := command_of (Num (Fin 100)) "deposit" (Str "t1") in
  let withdraw := command_of (Num (Fin 150)) "withdraw" (Str "t2") in
  let tx := {| transaction_id := Supplied "t2"; user_id := "u1";
               Schema.amount := Fin 150; Schema.type := "withdraw"; timestamp := 1 |} in
  let first := run (transactionLambdaHandler.execute deposit) (ledger "u1" 0) in
  let second := run (transactionLambdaHandler.execute withdraw) first.2 in
  let direct := run (PgTransactionWriteRepositoryAdapter.saveTransaction tx) first.2 in
  users (db first.2) !! "u1" = Some (Fin 100) ∧
  second.1 = inr tx ∧
  users (db second.2) !! "u1" = Some (Fin (-50)) ∧
  (run (PgTransactionReadRepositoryAdapter.getBalanceByUser "u1") second.2).1
    = inr (Num (Fin (-50))) ∧
  (run (PostgresRepository.getUserBalance "u1") second.2).1 = inr (Fin (-50)) ∧
  direct.1 = inr () ∧
  users (db direct.2) !! "u1" = Some (Fin (-50)).
Proof. vm_compute. repeat split. Qed.

(** The sibling write path does check: [PostgresRepository.saveTransaction]
    rejects a withdrawal above the stored balance and changes nothing. *)
Lemma PostgresRepository_rejects_overdraft (w : world) (user : string) (b a : Z) :
  txn w = None → faults w = [] →
  users (db w) !! user = Some (Fin b) → (b < a)%Z →
  run (PostgresRepository.saveTransaction
         {| Ports.userId := user; Ports.amount := Fin a; Ports.type := "withdraw" |}) w
  = (inl "Insufficient balance", w).
Proof.
  intros Hx Hf Hu Hlt. rewrite PostgresRepository_saveTransaction_spec by done.
  cbn [Ports.userId Ports.amount Ports.type]. rewrite Hu. cbv zeta.
  rewrite bool_decide_eq_false_2 by done. rewrite bool_decide_eq_true_2 by done.
  unfold gt. by rewrite bool_decide_eq_true_2.
Qed.

(** After a withdrawal that [PostgresRepository.saveTransaction] accepted,
    whatever failures were injected on the way, the stored balance of the
    user is not below zero. *)
Lemma PostgresRepository_withdrawal_not_below_zero (t : Ports.transaction) (w : world) :
  txn w = None →
  Ports.type t = "withdraw" →
  match run (PostgresRepository.saveTransaction t) w with
  | (inr _, w') =>
      ∃ b, users (db w') !! Ports.userId t = Some b ∧ lt b (Fin 0) = false
  | (inl _, _) => True
  end.
Proof.
  destruct w as [d x i c f l m]. intros Hx Ht. simpl in Hx. subst.
  unfold PostgresRepository.saveTransaction, PostgresRepository.try_block,
    PostgresRepository.catch_block, PostgresRepository.finally_block.
  destruct t as [user amt ty]. cbn [Ports.userId Ports.amount Ports.type] in *. subst.
  crunch; try done.
  all: unfold visible; cbn [db users balances]; eexists;
    (split; [by rewrite singleton_union_insert, lookup_insert_eq|]).
  all: match goal with
       | H : gt ?a ?b = false |- _ =>
           destruct a, b; simpl in *; try done; case_bool_decide; [lia|];
           apply bool_decide_eq_false_2; apply bool_decide_eq_false_1 in H; lia
       end.
Qed.

(** So does the aggregate of the domain: [User.withdraw] throws when the
    amount exceeds the balance, and what it leaves is not below zero. *)
Lemma User_withdraw_not_below_zero (u u' : User.user) (amount : number) :
  User.withdraw u amount = inr u' → lt (User.balance u') (Fin 0) = false.
Proof.
  unfold User.withdraw. destruct (le amount (Fin 0)); [done|].
  destruct (gt amount (User.balance u)) eqn:Hgt; [done|]. intros [= <-]. simpl.
  destruct amount as [a|], (User.balance u) as [b|]; simpl in *; try done.
  apply bool_decide_eq_false_2. apply bool_decide_eq_false_1 in Hgt. lia.
Qed.

(** ** A user without history *)

Lemma run_getBalanceByUser user w :
  faults w = [] →
  run (PgTransactionReadRepositoryAdapter.getBalanceByUser user) w
  = (inr (match users (db w) !! user with Some b => Num b | None => Null end), w).
Proof.
  destruct w as [d x i c f l m]. intros Hf. simpl in Hf. subst.
  unfold PgTransactionReadRepositoryAdapter.getBalanceByUser.
  run_step. unfold visible. by destruct (users d !! user).
Qed.

(** C9.  The two read paths disagree about a user without history.  The
    derived-balance path ([getUserBalance], which sums the transactions)
    answers [0] for a non-empty [userId] with no recorded transaction,
    and raises nothing; the maintained-balance path ([getBalanceByUser],
    which reads the [users] row) answers [null] for a [userId] without a
    row. *)
Theorem no_history_zero_or_null (w : world) (userId : string) :
  faults w = [] →
  (userId ≠ "" →
   of_user userId (transactions (db w)) = [] →
   run (localServer.getUserBalance (Str userId)) w = (inr (Fin 0), w)) ∧
  (users (db w) !! userId = None →
   run (PgTransactionReadRepositoryAdapter.getBalanceByUser userId) w = (inr Null, w)).
Proof.
  intros Hf. split.
  - intros Hu Hnone.
    unfold localServer.getUserBalance, TransactionService.getUserBalance.
    rewrite (truthy_Str _ Hu). cbn [negb].
    change (Ports.getUserBalance localServer.repository (param_text (Str userId)))
      with (PostgresRepository.getUserBalance userId).
    rewrite run_PostgresRepository_getUserBalance by done. by rewrite Hnone.
  - intros Hnone. rewrite run_getBalanceByUser by done. by rewrite Hnone.
Qed.

(** ** The read paths *)

#[local] Instance newer_first_transitive : Transitive newer_first.
Proof. unfold newer_first. intros r1 r2 r3 ??. lia. Qed.

#[local] Instance newer_first_total : Total newer_first.
Proof. unfold newer_first. intros r1 r2. lia. Qed.

Lemma order_by_timestamp_desc_sorted rows :
  StronglySorted newer_first (order_by_timestamp_desc rows).
Proof. apply (StronglySorted_merge_sort newer_first). Qed.


Lemma selected_of_user user rows r :
  r ∈ order_by_timestamp_desc (of_user user rows) → user_id r = user ∧ r ∈ rows.
Proof.
  unfold order_by_timestamp_desc, of_user.
  rewrite merge_sort_Permutation. by intros ?%list_elem_of_filter.
Qed.

Lemma run_getTransactionsByUser user limit w :
  faults w = [] →
  run (PgTransactionReadRepositoryAdapter.getTransactionsByUser user limit) w
  = (inr (take (default 100%nat limit)
               (order_by_timestamp_desc (of_user user (transactions (db w))))), w).
Proof.
  destruct w as [d x i c f l m]. intros Hf. simpl in Hf. subst.
  unfold PgTransactionReadRepositoryAdapter.getTransactionsByUser.
  by run_step.
Qed.



(** ** Validation *)

Lemma run_logError_Throw {A} (line : string) (e : error) w :
  run (let* _ := logError line in @Throw A e) w
  = (inl e, with_console w (console w ++ [("ERROR", line)])).
Proof. reflexivity. Qed.

Lemma userId_guard v :
  negb (truthy v) || negb (bool_decide (typeof v = "string")) = negb (nonempty_string v).
Proof.
  destruct v as [| |b|[z|]|s]; try reflexivity.
  - by destruct b.
  - cbn. by destruct (bool_decide (z = 0)).
  - cbn. by destruct (bool_decide (s = "")).
Qed.

Lemma amount_guard v :
  v ≠ Num NaN →
  negb (bool_decide (typeof v = "number")) || le (Number v) (Fin 0)
  = negb (positive_number v).
Proof.
  intros Hv. destruct v as [| |b|[z|]|s]; try reflexivity; [|done].
  cbn. repeat case_bool_decide; try done; lia.
Qed.




(** ** Publishing after the write *)


Lemma run_logInfo line w :
  run (logInfo line) w = (inr (), with_console w (console w ++ [("INFO", line)])).
Proof. reflexivity. Qed.


(** ** Replaying a transaction id *)











(** ** Two withdrawals of the full balance *)

Lemma with_txn_with_txn w x y : with_txn (with_txn w x) y = with_txn w y.
Proof. reflexivity. Qed.

Lemma with_txn_txn w : with_txn w (txn w) = w.
Proof. by destruct w. Qed.

(** One step of a caller that is alone is one step of [run]. *)
Lemma step_alone_agrees_with_run {A} (p : prog A) (w : world) :
  let st := Interleaving.step
              {| Interleaving.shared := with_txn w None;
                 Interleaving.clients := [{| Interleaving.code := p;
                                             Interleaving.session := txn w |}] |} 0 in
  match Interleaving.clients st with
  | [c] => run (Interleaving.code c)
               (with_txn (Interleaving.shared st) (Interleaving.session c)) = run p w
  | _ => False
  end.
Proof.
  destruct p as [a|e|R a k]; cbv zeta; unfold Interleaving.step, Interleaving.others;
    cbn [Interleaving.clients Interleaving.shared Interleaving.code Interleaving.session
         lookup list_lookup take drop app omap list_omap];
    rewrite ?with_txn_with_txn, ?with_txn_txn; try reflexivity.
  destruct (perform_alone a w) as [[r w'] E]. rewrite E.
  cbn [Interleaving.clients Interleaving.shared Interleaving.code Interleaving.session
       insert list_insert].
  rewrite with_txn_with_txn, with_txn_txn. cbn [run]. by rewrite E.
Qed.

(** C4, a counterexample.  A deposit of 100 on an empty ledger, then
    two callers withdrawing 100 each through
    [PostgresRepository.saveTransaction].  Each connects, begins and reads
    the balance before the other writes; then each inserts, updates and
    commits.  Both read the pre-balance 100 and both succeed: the store
    does not serialize them.  The stored balance ends at 0 and the
    balance derived from the recorded transactions at [-100]. *)
Lemma concurrent_withdrawals_both_succeed :
  let deposit := {| Ports.userId := "u1"; Ports.amount := Fin 100; Ports.type := "deposit" |} in
  let t := {| Ports.userId := "u1"; Ports.amount := Fin 100; Ports.type := "withdraw" |} in
  let funded := run (PostgresRepository.saveTransaction deposit) (ledger "u1" 0) in
  let st := Interleaving.schedule
              (Interleaving.start funded.2
                 [PostgresRepository.saveTransaction t; PostgresRepository.saveTransaction t])
              [0; 0; 0; 1; 1; 1; 0; 0; 0; 0; 1; 1; 1; 1]%nat in
  users (db funded.2) !! "u1" = Some (Fin 100) ∧
  Interleaving.outcome st 0
    = Some (inr {| transaction_id := Generated 1; user_id := "u1"; Schema.amount := Fin 100;
                   Schema.type := "withdraw"; timestamp := 1 |}) ∧
  Interleaving.outcome st 1
    = Some (inr {| transaction_id := Generated 2; user_id := "u1"; Schema.amount := Fin 100;
                   Schema.type := "withdraw"; timestamp := 2 |}) ∧
  users (db (Interleaving.shared st)) !! "u1" = Some (Fin 0) ∧
  (run (PostgresRepository.getUserBalance "u1") (Interleaving.shared st)).1
    = inr (Fin (-100)).
Proof. vm_compute. repeat split. Qed.

(** C4, for calls in sequence.  Two withdrawals of the full, positive balance of
    one user that run one after the other through
    [PostgresRepository.saveTransaction], with no failure injected and a
    fresh generated id: the first succeeds and leaves the balance at 0,
    the second fails with ["Insufficient balance"] and changes nothing.
    Exactly one succeeds. *)
Theorem serial_withdrawals_one_succeeds (w : world) (user : string) (b : Z) :
  txn w = None →
  faults w = [] →
  users (db w) !! user = Some (Fin b) →
  (0 < b)%Z →
  Generated (idseq w) ∉ transaction_id <$> transactions (db w) →
  let t := {| Ports.userId := user; Ports.amount := Fin b; Ports.type := "withdraw" |} in
  ∃ row w1,
    run (PostgresRepository.saveTransaction t) w = (inr row, w1) ∧
    users (db w1) !! user = Some (Fin 0) ∧
    run (PostgresRepository.saveTransaction t) w1 = (inl "Insufficient balance", w1).
Proof.
  intros Hx Hf Hu Hb Hfresh t.
  rewrite (PostgresRepository_saveTransaction_spec t w Hx Hf).
  cbn [Ports.userId Ports.amount Ports.type t]. rewrite Hu. cbv zeta.
  rewrite (bool_decide_eq_false_2 ("withdraw" = "deposit")) by done.
  rewrite (bool_decide_eq_true_2 ("withdraw" = "withdraw")) by done.
  unfold gt, sub. rewrite (bool_decide_eq_false_2 (b < b)%Z) by lia.
  rewrite (bool_decide_eq_false_2 _ Hfresh).
  eexists _, _. split; [reflexivity|].
  assert (users (db (appended (tick (next_id w))
            {| transaction_id := Generated (idseq w); user_id := user;
               Schema.amount := Fin b; Schema.type := "withdraw"; timestamp := clock w |}
            user (Fin (b - b)))) !! user = Some (Fin 0)) as Hu1.
  { simpl. rewrite lookup_insert_eq. do 2 f_equal. lia. }
  split; [exact Hu1|].
  apply PostgresRepository_rejects_overdraft with (b := 0%Z); done.
Qed.

(** ** The properties at concrete inputs *)

Lemma balance_is_sum_of_history_witness :
  transactions (db (ledger "u1" 0)) = [] ∧
  txn (ledger "u1" 0) = None ∧
  process_all scenario (ledger "u1" 0) = Some after_scenario ∧
  "u1" ≠ "" ∧
  faults after_scenario = [] ∧
  ∃ balance history,
    run (localServer.getUserBalance (Str "u1")) after_scenario
      = (inr balance, after_scenario) ∧
    run (localServer.getUserTransactions (Str "u1")) after_scenario
      = (inr history, after_scenario) ∧
    sum_signed history = Some balance.
Proof.
  assert (process_all scenario (ledger "u1" 0) = Some after_scenario) as H
    by (vm_compute; reflexivity).
  assert (faults after_scenario = []) as Hf by (vm_compute; reflexivity).
  split; [reflexivity|]. split; [reflexivity|]. split; [exact H|].
  split; [discriminate|]. split; [exact Hf|].
  exact (balance_is_sum_of_history (ledger "u1" 0) after_scenario scenario "u1"
           eq_refl eq_refl H ltac:(discriminate) Hf).
Defined.


Lemma serial_withdrawals_one_succeeds_witness :
  txn (ledger "u1" 100) = None ∧
  faults (ledger "u1" 100) = [] ∧
  users (db (ledger "u1" 100)) !! "u1" = Some (Fin 100) ∧
  (0 < 100)%Z ∧
  (Generated (idseq (ledger "u1" 100))
     ∉ transaction_id <$> transactions (db (ledger "u1" 100))) ∧
  (let t := {| Ports.userId := "u1"; Ports.amount := Fin 100; Ports.type := "withdraw" |} in
   ∃ row w1,
     run (PostgresRepository.saveTransaction t) (ledger "u1" 100) = (inr row, w1) ∧
     users (db w1) !! "u1" = Some (Fin 0) ∧
     run (PostgresRepository.saveTransaction t) w1 = (inl "Insufficient balance", w1)).
Proof.
  assert (Generated (idseq (ledger "u1" 100))
            ∉ transaction_id <$> transactions (db (ledger "u1" 100))) as Hfresh
    by (simpl; apply not_elem_of_nil).
  assert (users (db (ledger "u1" 100)) !! "u1" = Some (Fin 100)) as Hu
    by (vm_compute; reflexivity).
  split; [reflexivity|]. split; [reflexivity|]. split; [exact Hu|].
  split; [lia|]. split; [exact Hfresh|].
  exact (serial_withdrawals_one_succeeds (ledger "u1" 100) "u1" 100
           eq_refl eq_refl Hu ltac:(lia) Hfresh).
Defined.





Lemma no_history_zero_or_null_witness :
  faults (ledger "u1" 100) = [] ∧
  "u2" ≠ "" ∧
  of_user "u2" (transactions (db (ledger "u1" 100))) = [] ∧
  users (db (ledger "u1" 100)) !! "u2" = None ∧
  run (localServer.getUserBalance (Str "u2")) (ledger "u1" 100)
    = (inr (Fin 0), ledger "u1" 100) ∧
  run (PgTransactionReadRepositoryAdapter.getBalanceByUser "u2") (ledger "u1" 100)
    = (inr Null, ledger "u1" 100).
Proof.
  assert (users (db (ledger "u1" 100)) !! "u2" = None) as Hu by (vm_compute; reflexivity).
  split; [reflexivity|]. split; [discriminate|]. split; [reflexivity|]. split; [exact Hu|].
  split.
  - exact (proj1 (no_history_zero_or_null (ledger "u1" 100) "u2" eq_refl)
             ltac:(discriminate) eq_refl).
  - exact (proj2 (no_history_zero_or_null (ledger "u1" 100) "u2" eq_refl) Hu).
Defined.


(** * Further properties of the ledger code *)

(** ** What a write leaves behind, whatever failures are injected *)

Ltac decided :=
  repeat match goal with
    | H : bool_decide _ = true |- _ => apply bool_decide_eq_true_1 in H
    | H : bool_decide _ = false |- _ => apply bool_decide_eq_false_1 in H
    end.

Ltac close_unit :=
  unfold visible; cbn [inserted balances users transactions db];
  rewrite ?singleton_union_insert, ?(left_id_L ∅ (∪)).

Lemma PgTransactionWriteRepositoryAdapter_saveTransaction_outcome tx w :
  txn w = None →
  match run (PgTransactionWriteRepositoryAdapter.saveTransaction tx) w with
  | (inl e, w') => w' = with_faults w (faults w')
  | (inr _, w') =>
      (transaction_id tx ∉ transaction_id <$> transactions (db w)) ∧
      w' = with_faults
             (with_db w
                {| users := alter (λ b, if bool_decide (Schema.type tx = "deposit")
                                        then add b (Schema.amount tx)
                                        else sub b (Schema.amount tx))
                                  (user_id tx) (users (db w));
                   transactions := transactions (db w) ++ [tx] |} None)
             (faults w')
  end.
Proof.
  destruct w as [d x i c f l m]. intros Hx. simpl in Hx. subst.
  unfold PgTransactionWriteRepositoryAdapter.saveTransaction,
    PgTransactionWriteRepositoryAdapter.try_block,
    PgTransactionWriteRepositoryAdapter.catch_block,
    PgTransactionWriteRepositoryAdapter.finally_block.
  destruct tx as [id user amt ty ts].
  cbn [transaction_id user_id Schema.amount Schema.type timestamp].
  crunch; try done.
  all: decided; (split; [done|]).
  all: close_unit; unfold with_faults, with_db;
    cbn [db txn idseq clock faults console eventsMemory].
  all: do 2 f_equal.
  all: first [by erewrite alter_present | by rewrite alter_absent].
Qed.

Lemma PostgresRepository_saveTransaction_outcome t w :
  txn w = None →
  match run (PostgresRepository.saveTransaction t) w with
  | (inl e, w') =>
      db w' = db w ∧ txn w' = None ∧ console w' = console w ∧
      eventsMemory w' = eventsMemory w
  | (inr row, w') =>
      ∃ balance,
        users (db w) !! Ports.userId t = Some balance ∧
        (Ports.type t = "deposit" ∨
         Ports.type t = "withdraw" ∧ gt (Ports.amount t) balance = false) ∧
        row = {| transaction_id := Generated (idseq w); user_id := Ports.userId t;
                 Schema.amount := Ports.amount t; Schema.type := Ports.type t;
                 timestamp := clock w |} ∧
        (transaction_id row ∉ transaction_id <$> transactions (db w)) ∧
        w' = with_faults
               (appended (tick (next_id w)) row (Ports.userId t)
                  (if bool_decide (Ports.type t = "deposit")
                   then add balance (Ports.amount t)
                   else sub balance (Ports.amount t)))
               (faults w')
  end.
Proof.
  destruct w as [d x i c f l m]. intros Hx. simpl in Hx. subst.
  unfold PostgresRepository.saveTransaction, PostgresRepository.try_block,
    PostgresRepository.catch_block, PostgresRepository.finally_block.
  destruct t as [user amt ty]. cbn [Ports.userId Ports.amount Ports.type].
  crunch; try done.
  all: cbn [db txn console eventsMemory]; decided.
  all: eexists; (split; [reflexivity|]).
  all: (split; [first [by left | by right]|]).
  all: (split; [reflexivity|]).
  all: (split; [done|]).
  all: close_unit; unfold appended, with_faults, tick, next_id;
    cbn [db txn idseq clock faults console eventsMemory users transactions].
  all: reflexivity.
Qed.

(** The advisory balance check of [processTransaction]. *)
Lemma advisory_check_outcome (ty amount : value) (user : string) w :
  txn w = None →
  match run (if bool_decide (ty = Str "withdraw") then
               let* currentBalance := Ports.getUserBalance localServer.repository user in
               if gt (Number amount) currentBalance then
                 let* _ := logError "Insufficient balance for withdrawal" in
                 Throw "Insufficient balance"
               else Ret ()
             else Ret ()) w with
  | (inl e, w') => db w' = db w ∧ txn w' = None ∧ eventsMemory w' = eventsMemory w
  | (inr _, w') =>
      w' = with_faults w (faults w') ∧
      (ty = Str "withdraw" → gt (Number amount) (derived_balance user (db w)) = false)
  end.
Proof.
  destruct w as [d x i c f l m]. intros Hx. simpl in Hx. subst.
  case_bool_decide as Hty; [|done].
  unfold localServer.repository, PostgresRepository.repository,
    PostgresRepository.getUserBalance, logError.
  cbn [Ports.getUserBalance].
  crunch; done.
Qed.

Lemma processTransaction_outcome d w :
  txn w = None →
  match run (localServer.processTransaction d) w with
  | (inl e, w') => db w' = db w ∧ txn w' = None ∧ eventsMemory w' = eventsMemory w
  | (inr row, w') =>
      let t := TransactionService.destructure d in
      ∃ balance,
        users (db w) !! Ports.userId t = Some balance ∧
        le (Ports.amount t) (Fin 0) = false ∧
        (Ports.type t = "deposit" ∨
         Ports.type t = "withdraw" ∧ gt (Ports.amount t) balance = false ∧
         gt (Ports.amount t) (derived_balance (Ports.userId t) (db w)) = false) ∧
        row = {| transaction_id := Generated (idseq w); user_id := Ports.userId t;
                 Schema.amount := Ports.amount t; Schema.type := Ports.type t;
                 timestamp := clock w |} ∧
        (transaction_id row ∉ transaction_id <$> transactions (db w)) ∧
        db w' = {| users := <[Ports.userId t :=
                     if bool_decide (Ports.type t = "deposit")
                     then add balance (Ports.amount t)
                     else sub balance (Ports.amount t)]> (users (db w));
                   transactions := transactions (db w) ++ [row] |} ∧
        txn w' = None ∧ eventsMemory w' = eventsMemory w
  end.
Proof.
  intros Hx. unfold localServer.processTransaction, TransactionService.processTransaction.
  destruct (_ || _); [by rewrite run_logError_Throw|].
  destruct (_ || _) eqn:Hpos; [by rewrite run_logError_Throw|].
  apply orb_false_elim in Hpos as [_ Hpos].
  destruct (negb _) eqn:Hinc; [by rewrite run_logError_Throw|].
  apply negb_false_iff, bool_decide_eq_true_1, list_elem_of_In in Hinc.
  rewrite run_bind, run_logInfo, run_try_catch, run_bind.
  set (w0 := with_console w _).
  pose proof (advisory_check_outcome (TransactionService.type d)
                (TransactionService.amount d)
                (param_text (TransactionService.userId d)) w0 Hx) as Hadv.
  destruct (run (if bool_decide (TransactionService.type d = Str "withdraw")
                 then _ else _) w0) as [[e|[]] w1].
  { rewrite run_logError_Throw. simpl. done. }
  destruct Hadv as [Hw1 Hadv].
  rewrite run_bind.
  pose proof (PostgresRepository_saveTransaction_outcome
                (TransactionService.destructure d) w1) as Hsave.
  change (Ports.saveTransaction localServer.repository)
    with PostgresRepository.saveTransaction.
  destruct (run (PostgresRepository.saveTransaction _) w1) as [[e|row] w2].
  { rewrite run_logError_Throw. rewrite Hw1 in Hsave. simpl in *.
    destruct Hsave as (-> & -> & _ & ->); done. }
  assert (∀ w2,
    run (let* _ :=
           let* _ := Ports.publish localServer.eventPublisher
                       {| name := "TRANSACTION_PROCESSED"; payload := row;
                          occurredAt := None |} in
           logInfo "Event published (mock)" in
         Ret row) w2
    = (inr row,
       with_console w2 ((console w2 ++ [("LOG", "Event published (mock):")])
                        ++ [("INFO", "Event published (mock)")]))) as -> by reflexivity.
  rewrite Hw1 in Hsave. destruct (Hsave Hx) as (balance & Hu & Hty & -> & Hfresh & ->).
  exists balance. split; [exact Hu|]. split; [exact Hpos|]. split.
  { destruct Hty as [?|[Hty ?]]; [by left|right]. split; [done|]. split; [done|].
    apply Hadv. revert Hty. unfold TransactionService.destructure. cbn [Ports.type].
    destruct Hinc as [<-|[<-|[]]]; done. }
  split; [reflexivity|]. split; [exact Hfresh|]. by repeat split.
Qed.

Lemma run_build command w :
  let id := if truthy (CreateTransactionService.transaction_id command)
            then Supplied (param_text (CreateTransactionService.transaction_id command))
            else Generated (idseq w) in
  let now := default (clock w) (CreateTransactionService.timestamp command) in
  ∃ w', run (CreateTransactionService.build command) w
        = (inr (CreateTransactionService.tx_of command id now), w') ∧
        db w' = db w ∧ txn w' = txn w ∧ faults w' = faults w ∧
        console w' = console w ∧ eventsMemory w' = eventsMemory w.
Proof.
  unfold CreateTransactionService.build.
  destruct (truthy _), (CreateTransactionService.timestamp command);
    eexists; (split; [reflexivity|done]).
Qed.

Lemma run_notify (tx : transactions_row) w :
  run (let* event := TransactionCreatedEvent tx in
       let* _ := Ports.publish transactionLambdaHandler.eventPublisher event in
       let* _ := Ports.info transactionLambdaHandler.logger "transaction_created" in
       Ret tx) w
  = (inr tx,
     with_console
       (with_eventsMemory (tick w)
          (eventsMemory w ++ [{| name := "TransactionCreated"; payload := tx;
                                occurredAt := Some (clock w) |}]))
       ((console w ++ [("info", "event_published")])
        ++ [("info", "transaction_created")])).
Proof. reflexivity. Qed.

Lemma sub_add_neg b a : sub b a = add b (neg a).
Proof. destruct a, b; simpl; f_equal; lia. Qed.

Lemma change_known_type (tx : transactions_row) (us : gmap string number) :
  known_type (Schema.type tx) →
  alter (λ b, if bool_decide (Schema.type tx = "deposit") then add b (Schema.amount tx)
              else sub b (Schema.amount tx)) (user_id tx) us
  = alter (λ b, add b (case_amount tx)) (user_id tx) us.
Proof.
  intros Hty. apply alter_ext. intros b _. unfold case_amount.
  destruct Hty as [-> | ->]; simpl; [done|apply sub_add_neg].
Qed.

Lemma execute_outcome command w :
  txn w = None →
  match run (transactionLambdaHandler.execute command) w with
  | (inl e, w') => db w' = db w ∧ txn w' = None ∧ eventsMemory w' = eventsMemory w
  | (inr tx, w') =>
      execute_accepts command = true ∧
      tx = CreateTransactionService.tx_of command
             (if truthy (CreateTransactionService.transaction_id command)
              then Supplied (param_text (CreateTransactionService.transaction_id command))
              else Generated (idseq w))
             (default (clock w) (CreateTransactionService.timestamp command)) ∧
      (transaction_id tx ∉ transaction_id <$> transactions (db w)) ∧
      db w' = applied (db w) tx ∧ txn w' = None ∧
      ∃ time, eventsMemory w'
              = (eventsMemory w ++ [{| name := "TransactionCreated"; payload := tx;
                                       occurredAt := Some time |}])%list
  end.
Proof.
  intros Hx.
  unfold transactionLambdaHandler.execute, CreateTransactionService.execute, execute_accepts.
  destruct (truthy (CreateTransactionService.user_id command)); [|done].
  destruct (_ || _); [done|].
  destruct (includes _ _) eqn:Hty; [|done].
  cbn [negb andb]. apply includes_known_type in Hty.
  unfold CreateTransactionService.create. rewrite run_bind.
  destruct (run_build command w) as (wb & -> & Hdb & Htxn & _ & _ & Hm).
  rewrite run_bind.
  change (Ports.write transactionLambdaHandler.writeRepo)
    with PgTransactionWriteRepositoryAdapter.saveTransaction.
  set (tx := CreateTransactionService.tx_of command _ _).
  pose proof (PgTransactionWriteRepositoryAdapter_saveTransaction_outcome tx wb) as Hsave.
  rewrite Htxn, Hx in Hsave. specialize (Hsave eq_refl).
  destruct (run (PgTransactionWriteRepositoryAdapter.saveTransaction tx) wb)
    as [[e|[]] w2].
  { rewrite Hsave. simpl. rewrite Hdb, Htxn, Hm. done. }
  destruct Hsave as [Hfresh ->]. rewrite run_notify.
  split; [done|]. split; [done|]. split; [by rewrite <- Hdb|].
  split.
  { cbn [db with_console with_eventsMemory tick with_faults with_db]. unfold applied.
    rewrite Hdb. f_equal. by apply change_known_type. }
  split; [done|]. eexists.
  cbn [eventsMemory with_console with_eventsMemory tick with_faults with_db].
  by rewrite Hm.
Qed.

(** A call of either service, as its entry point wires it. *)
Lemma process_outcome c w :
  txn w = None →
  match run (process c) w with
  | (inl e, w') => db w' = db w ∧ txn w' = None
  | (inr row, w') =>
      user_id row = user_of c ∧ known_type (Schema.type row) ∧
      (transaction_id row ∉ transaction_id <$> transactions (db w)) ∧
      db w' = applied (db w) row ∧ txn w' = None
  end.
Proof.
  intros Hx. destruct c as [d|command]; cbn [process user_of].
  - pose proof (processTransaction_outcome d w Hx) as H.
    destruct (run (localServer.processTransaction d) w) as [[e|row] w'].
    { destruct H as (? & ? & _). done. }
    cbv zeta in H. destruct H as (balance & Hu & _ & Hty & -> & Hfresh & -> & ? & _).
    cbn [user_id Schema.type]. split; [done|].
    assert (known_type (Ports.type (TransactionService.destructure d))) as Hk.
    { destruct Hty as [?|[? _]]; [by left|by right]. }
    split; [done|]. split; [done|]. split; [|done].
    unfold applied. cbn [user_id]. f_equal.
    rewrite (alter_present _ _ balance) by done. f_equal.
    unfold case_amount. cbn [Schema.type Schema.amount].
    destruct Hty as [-> | [-> _]]; simpl; [done|apply sub_add_neg].
  - pose proof (execute_outcome command w Hx) as H.
    destruct (run (transactionLambdaHandler.execute command) w) as [[e|row] w'].
    { destruct H as (? & ? & _). done. }
    destruct H as (Hacc & -> & Hfresh & -> & ? & _).
    split; [done|]. split; [|done].
    cbn [Schema.type CreateTransactionService.tx_of].
    apply includes_known_type. unfold execute_accepts in Hacc.
    by apply andb_prop in Hacc as [_ ?].
Qed.


(** ** [PostgresRepository.saveTransaction] when no failure is injected *)

(** X1.  What [PostgresRepository.saveTransaction] rejects, and in which
    order.  With no failure injected, a [userId] without a balance row is
    rejected with ["User not found"], whatever the type; for a user with
    a row, a type other than ["deposit"] and ["withdraw"] is rejected
    with ["Invalid transaction type"], and a withdrawal of more than the
    stored balance with ["Insufficient balance"].  Each rejection leaves
    the world exactly as it was: nothing is stored, no unit stays open
    and no id is consumed. *)
Theorem saveTransaction_rejections (t : Ports.transaction) (w : world) :
  txn w = None → faults w = [] →
  (users (db w) !! Ports.userId t = None →
   run (PostgresRepository.saveTransaction t) w = (inl "User not found", w)) ∧
  (∀ balance, users (db w) !! Ports.userId t = Some balance →
     (Ports.type t ≠ "deposit" → Ports.type t ≠ "withdraw" →
      run (PostgresRepository.saveTransaction t) w = (inl "Invalid transaction type", w)) ∧
     (Ports.type t = "withdraw" → gt (Ports.amount t) balance = true →
      run (PostgresRepository.saveTransaction t) w = (inl "Insufficient balance", w))).
Proof.
  intros Hx Hf. rewrite (PostgresRepository_saveTransaction_spec t w Hx Hf).
  split; [by intros ->|]. intros balance ->. cbv zeta. split.
  - intros H1 H2. by rewrite !bool_decide_eq_false_2.
  - intros -> ->. done.
Qed.

(** X2.  What [PostgresRepository.saveTransaction] accepts.  With no
    failure injected, for a user with a balance row and a generated id
    that is not taken, a deposit of any amount and a withdrawal that does
    not exceed the stored balance are committed: the call returns the row
    with the generated id and the time of the store, the row is appended
    to the transactions, the balance row becomes [balance + amount] for a
    deposit and [balance - amount] for a withdrawal, and no unit stays
    open.  The amount itself is not validated here. *)
Theorem saveTransaction_accepts (t : Ports.transaction) (w : world) (balance : number) :
  txn w = None → faults w = [] →
  users (db w) !! Ports.userId t = Some balance →
  Generated (idseq w) ∉ transaction_id <$> transactions (db w) →
  Ports.type t = "deposit" ∨
    Ports.type t = "withdraw" ∧ gt (Ports.amount t) balance = false →
  let row := {| transaction_id := Generated (idseq w); user_id := Ports.userId t;
                Schema.amount := Ports.amount t; Schema.type := Ports.type t;
                timestamp := clock w |} in
  ∃ w', run (PostgresRepository.saveTransaction t) w = (inr row, w') ∧
        users (db w')
        = <[Ports.userId t := if bool_decide (Ports.type t = "deposit")
                              then add balance (Ports.amount t)
                              else sub balance (Ports.amount t)]> (users (db w)) ∧
        transactions (db w') = (transactions (db w) ++ [row])%list ∧
        txn w' = None ∧ faults w' = [].
Proof.
  intros Hx Hf Hu Hfresh Hty row. subst row.
  rewrite (PostgresRepository_saveTransaction_spec t w Hx Hf), Hu. cbv zeta.
  rewrite (bool_decide_eq_false_2 _ Hfresh).
  destruct Hty as [Hty | [Hty Hgt]]; rewrite Hty; simpl; rewrite ?Hgt;
    eexists; (split; [reflexivity|]); by rewrite ?Hf.
Qed.

(** ** [TransactionService.processTransaction] and the two balances *)

(** X3.  The advisory check of [processTransaction] is made against the
    balance derived from the transactions, not against the balance row.
    With no failure injected into the read, a withdrawal of a positive
    amount that exceeds what the recorded transactions of the user add up
    to is refused with ["Insufficient balance"] before any write is
    attempted, whatever the balance row holds and whatever publisher is
    injected: the world is as before but for three lines on the console.
    In particular a user without recorded transactions can withdraw
    nothing. *)
Theorem withdrawal_above_derived_balance_is_refused
    (publisher : option Ports.EventPublisher) (user : string) (a : number) (i : value)
    (w : world) :
  faults w = [] → user ≠ "" → le a (Fin 0) = false →
  gt a (derived_balance user (db w)) = true →
  run (TransactionService.processTransaction localServer.repository publisher
         {| TransactionService.userId := Str user; TransactionService.amount := Num a;
            TransactionService.type := Str "withdraw"; TransactionService.id := i |}) w
  = (inl "Insufficient balance",
     with_console w (console w ++ [("INFO", "Processing transaction");
                                   ("ERROR", "Insufficient balance for withdrawal");
                                   ("ERROR", "Error processing transaction")])).
Proof.
  intros Hf Hu Hpos Hgt. unfold TransactionService.processTransaction.
  cbn [TransactionService.userId TransactionService.amount TransactionService.type].
  rewrite (truthy_Str _ Hu). cbn [typeof Number negb orb]. rewrite Hpos.
  rewrite (bool_decide_eq_true_2 ("string" = "string")) by done.
  rewrite (bool_decide_eq_true_2 ("number" = "number")) by done.
  cbn [negb orb].
  rewrite (bool_decide_eq_true_2 (Str "withdraw" = Str "withdraw")) by done.
  assert (includes [Str "deposit"; Str "withdraw"] (Str "withdraw") = true) as ->
    by (apply bool_decide_eq_true_2; set_solver).
  cbn [negb].
  rewrite run_bind, run_logInfo, run_try_catch, run_bind, run_bind.
  change (Ports.getUserBalance localServer.repository) with PostgresRepository.getUserBalance.
  rewrite run_PostgresRepository_getUserBalance by done.
  cbn [param_text db with_console].
  fold (derived_balance user (db w)). rewrite Hgt.
  rewrite run_logError_Throw, run_logError_Throw.
  f_equal. unfold with_console. cbn [db txn idseq clock faults console eventsMemory].
  by rewrite <- !app_assoc.
Qed.

(** X4.  A withdrawal that [processTransaction] completes, whatever
    failures are injected, exceeded neither balance: the user had a
    balance row, the amount was not above the stored balance nor above
    the balance that [getUserBalance] derives from the transactions, and
    the balance row afterwards holds the stored balance less the
    amount. *)
Theorem withdrawal_is_covered_by_both_balances
    (d : TransactionService.transactionData) (w : world) row w' :
  txn w = None →
  TransactionService.type d = Str "withdraw" →
  run (localServer.processTransaction d) w = (inr row, w') →
  let user := param_text (TransactionService.userId d) in
  let amount := Number (TransactionService.amount d) in
  ∃ stored derived,
    users (db w) !! user = Some stored ∧
    (run (PostgresRepository.getUserBalance user) (with_faults w [])).1 = inr derived ∧
    gt amount stored = false ∧
    gt amount derived = false ∧
    users (db w') !! user = Some (sub stored amount).
Proof.
  intros Hx Hty E user amount.
  pose proof (processTransaction_outcome d w Hx) as H. rewrite E in H. cbv zeta in H.
  destruct H as (balance & Hu & _ & Hcase & _ & _ & -> & _).
  unfold TransactionService.destructure in *.
  cbn [Ports.type Ports.amount Ports.userId] in *. rewrite Hty in *.
  destruct Hcase as [Hcase | (_ & Hs & Hd)]; [done|].
  exists balance, (derived_balance user (db w)).
  split; [done|]. split; [by rewrite run_PostgresRepository_getUserBalance|].
  split; [done|]. split; [done|]. cbn [users]. by rewrite lookup_insert_eq.
Qed.

Lemma processTransaction_succeeds (user ty : string) (a : number) (i : value)
    (w : world) (balance : number) :
  txn w = None → faults w = [] → user ≠ "" → le a (Fin 0) = false →
  users (db w) !! user = Some balance →
  Generated (idseq w) ∉ transaction_id <$> transactions (db w) →
  ty = "deposit" ∨
    ty = "withdraw" ∧ gt a balance = false ∧ gt a (derived_balance user (db w)) = false →
  let row := {| transaction_id := Generated (idseq w); user_id := user;
                Schema.amount := a; Schema.type := ty; timestamp := clock w |} in
  ∃ w', run (localServer.processTransaction
               {| TransactionService.userId := Str user; TransactionService.amount := Num a;
                  TransactionService.type := Str ty; TransactionService.id := i |}) w
        = (inr row, w') ∧
        db w' = {| users := <[user := if bool_decide (ty = "deposit")
                                       then add balance a else sub balance a]> (users (db w));
                   transactions := transactions (db w) ++ [row] |} ∧
        txn w' = None ∧ faults w' = [] ∧ idseq w' = S (idseq w).
Proof.
  intros Hx Hf Hu Hpos Hb Hfresh Hty row. subst row.
  unfold localServer.processTransaction, TransactionService.processTransaction.
  cbn [TransactionService.userId TransactionService.amount TransactionService.type].
  rewrite (truthy_Str _ Hu). cbn [typeof Number negb orb]. rewrite Hpos.
  rewrite (bool_decide_eq_true_2 ("string" = "string")) by done.
  rewrite (bool_decide_eq_true_2 ("number" = "number")) by done.
  cbn [negb orb].
  assert (includes [Str "deposit"; Str "withdraw"] (Str ty) = true) as ->.
  { apply bool_decide_eq_true_2. destruct Hty as [-> | [-> _]]; set_solver. }
  cbn [negb].
  rewrite run_bind, run_logInfo, run_try_catch, run_bind.
  set (w0 := with_console w _).
  assert (run (if bool_decide (Str ty = Str "withdraw")
               then
                 let* currentBalance :=
                   Ports.getUserBalance localServer.repository (param_text (Str user)) in
                 if gt a currentBalance
                 then let* _ := logError "Insufficient balance for withdrawal" in
                      Throw "Insufficient balance"
                 else Ret ()
               else Ret ()) w0 = (inr (), w0)) as ->.
  { case_bool_decide as Hw; [|done].
    rewrite run_bind.
    change (Ports.getUserBalance localServer.repository)
      with PostgresRepository.getUserBalance.
    rewrite run_PostgresRepository_getUserBalance by done.
    cbn [param_text db with_console w0]. fold (derived_balance user (db w)).
    destruct Hty as [-> | (_ & _ & ->)]; done. }
  rewrite run_bind.
  change (Ports.saveTransaction localServer.repository)
    with PostgresRepository.saveTransaction.
  rewrite PostgresRepository_saveTransaction_spec by done.
  unfold TransactionService.destructure.
  cbn [TransactionService.userId TransactionService.amount TransactionService.type
       Ports.userId Ports.amount Ports.type param_text Number db w0 with_console
       idseq clock].
  rewrite Hb. cbv zeta. rewrite (bool_decide_eq_false_2 _ Hfresh).
  destruct Hty as [-> | (-> & Hgt & _)]; simpl bool_decide; cbv iota; rewrite ?Hgt;
    eexists; (split; [reflexivity|]); cbn; by rewrite ?Hf.
Qed.

(** ** Sequences of calls *)


Lemma of_user_app user rows row :
  of_user user (rows ++ [row])
  = (of_user user rows ++ if bool_decide (user_id row = user) then [row] else [])%list.
Proof.
  unfold of_user. rewrite filter_app. f_equal.
  rewrite filter_cons, filter_nil.
  case_decide; [by rewrite bool_decide_eq_true_2|by rewrite bool_decide_eq_false_2].
Qed.


Lemma derived_balance_applied t row user :
  derived_balance user (applied t row)
  = if bool_decide (user_id row = user)
    then add (derived_balance user t) (case_amount row)
    else derived_balance user t.
Proof.
  unfold derived_balance, applied. cbn [transactions].
  rewrite of_user_app. case_bool_decide; [|by rewrite app_nil_r].
  rewrite !COALESCE_SUM, fmap_app.
  rewrite (foldr_add_Permutation _ (case_amount row
             :: (case_amount <$> of_user user (transactions t)))).
  - simpl. apply add_comm.
  - simpl. by rewrite Permutation_app_comm.
Qed.

Lemma balances_agree_applied t row :
  balances_agree t → balances_agree (applied t row).
Proof.
  intros H user b. rewrite derived_balance_applied. unfold applied. cbn [users].
  case_bool_decide as Hu.
  - subst. rewrite lookup_alter_eq.
    destruct (users t !! user_id row) as [b0|] eqn:E; [|done].
    simpl. intros [= <-]. by rewrite (H _ _ E).
  - rewrite lookup_alter_ne by done. apply H.
Qed.

Lemma applied_users_dom t row user :
  is_Some (users (applied t row) !! user) ↔ is_Some (users t !! user).
Proof.
  unfold applied. cbn [users].
  destruct (decide (user_id row = user)) as [<-|?].
  - rewrite lookup_alter_eq. by rewrite fmap_is_Some.
  - by rewrite lookup_alter_ne.
Qed.

(** What every successful call of a sequence preserves holds after the
    sequence: a failed call changes nothing. *)
Lemma after_invariant (I : tables → Prop) (cs : list call) :
  (∀ c w row w', txn w = None → I (db w) → In c cs →
     run (process c) w = (inr row, w') → I (db w')) →
  ∀ w, txn w = None → I (db w) → txn (after cs w) = None ∧ I (db (after cs w)).
Proof.
  induction cs as [|c cs IH]; intros Hstep w Hx HI; [done|].
  cbn [after foldl]. fold (after cs ((run (process c) w).2)).
  pose proof (process_outcome c w Hx) as H.
  destruct (run (process c) w) as [[e|row] w1] eqn:E; cbn [snd].
  - destruct H as [Hdb Hx1]. apply IH; [|done|by rewrite Hdb].
    intros c' w0 row w' ? ? Hin. apply Hstep; [done..|by right].
  - destruct H as (_ & _ & _ & _ & Hx1). apply IH; [|done|].
    + intros c' w0 row' w' ? ? Hin. apply Hstep; [done..|by right].
    + exact (Hstep c w row w1 Hx HI (or_introl eq_refl) E).
Qed.

Lemma after_users_dom cs : ∀ w user,
  txn w = None →
  is_Some (users (db (after cs w)) !! user) ↔ is_Some (users (db w) !! user).
Proof.
  intros w user Hx.
  apply (after_invariant
           (λ t, is_Some (users t !! user) ↔ is_Some (users (db w) !! user)) cs);
    [|done|done].
  intros c w0 row w' Hx0 HI _ E.
  pose proof (process_outcome c w0 Hx0) as H. rewrite E in H.
  destruct H as (_ & _ & _ & -> & _). by rewrite applied_users_dom.
Qed.

Lemma after_balances_agree cs w :
  txn w = None → balances_agree (db w) → balances_agree (db (after cs w)).
Proof.
  intros Hx H0.
  apply (after_invariant balances_agree cs); [|done..].
  intros c w0 row w' Hx0 HI _ E.
  pose proof (process_outcome c w0 Hx0) as H. rewrite E in H.
  destruct H as (_ & _ & _ & -> & _). by apply balances_agree_applied.
Qed.

Lemma add_not_below_zero b a :
  lt b (Fin 0) = false → le a (Fin 0) = false → lt (add b a) (Fin 0) = false.
Proof.
  destruct a as [a|], b as [b|]; simpl; try done.
  intros H1%bool_decide_eq_false_1 H2%bool_decide_eq_false_1.
  apply bool_decide_eq_false_2. lia.
Qed.

Lemma sub_not_below_zero b a : gt a b = false → lt (sub b a) (Fin 0) = false.
Proof.
  destruct a as [a|], b as [b|]; simpl; try done.
  intros H%bool_decide_eq_false_1. apply bool_decide_eq_false_2. lia.
Qed.

Lemma after_processTransaction_no_negative_balance
    (ds : list TransactionService.transactionData) (w : world) :
  txn w = None →
  no_negative_balance (db w) →
  no_negative_balance (db (after (ProcessTransaction <$> ds) w)).
Proof.
  intros Hx H0.
  apply (after_invariant no_negative_balance (ProcessTransaction <$> ds)); [|done..].
  intros c w0 row w' Hx0 HI Hin E.
  apply list_elem_of_In, list_elem_of_fmap in Hin as (d & -> & _).
  cbn [process] in E.
  pose proof (processTransaction_outcome d w0 Hx0) as H. rewrite E in H.
  cbv zeta in H. destruct H as (balance & Hu & Hpos & Hty & _ & _ & -> & _).
  intros user b. cbn [users].
  destruct (decide (Ports.userId (TransactionService.destructure d) = user)) as [<-|Hne].
  - rewrite lookup_insert_eq. intros [= <-].
    unfold TransactionService.destructure in *.
    cbn [Ports.type Ports.amount Ports.userId] in *.
    destruct Hty as [-> | (-> & Hgt & _)]; simpl.
    + apply add_not_below_zero; [by eapply HI|done].
    + by apply sub_not_below_zero.
  - rewrite lookup_insert_ne by done. apply HI.
Qed.

(** X5.  The domain service keeps every balance row at or above zero.
    Start with no balance row below zero and make any sequence of
    [processTransaction] calls, whether they succeed or fail and whatever
    failures are injected: afterwards no balance row is below zero.  When
    the balance rows agreed with the transactions at the start, the
    balance that [getUserBalance] derives for a user with a balance row
    is not below zero either. *)
Theorem processTransaction_keeps_balances_nonnegative
    (ds : list TransactionService.transactionData) (w : world) :
  txn w = None →
  no_negative_balance (db w) →
  let w' := after (ProcessTransaction <$> ds) w in
  no_negative_balance (db w') ∧
  (balances_agree (db w) → faults w' = [] →
   ∀ userId, userId ≠ "" → is_Some (users (db w) !! userId) →
     ∃ balance,
       run (localServer.getUserBalance (Str userId)) w' = (inr balance, w') ∧
       lt balance (Fin 0) = false).
Proof.
  intros Hx H0 w'.
  pose proof (after_processTransaction_no_negative_balance ds w Hx H0) as Hnn.
  split; [exact Hnn|]. intros Hagree Hf userId Hne Hrow.
  apply (after_users_dom (ProcessTransaction <$> ds) w userId Hx) in Hrow as [b Hb].
  exists b. split.
  - unfold localServer.getUserBalance, TransactionService.getUserBalance.
    rewrite (truthy_Str _ Hne). cbn [negb].
    change (Ports.getUserBalance localServer.repository (param_text (Str userId)))
      with (PostgresRepository.getUserBalance userId).
    rewrite run_PostgresRepository_getUserBalance by done.
    do 2 f_equal. symmetry.
    by apply (after_balances_agree (ProcessTransaction <$> ds) w Hx Hagree).
  - by apply (Hnn userId).
Qed.

Lemma derived_balance_ext user t1 t2 :
  transactions t1 = transactions t2 → derived_balance user t1 = derived_balance user t2.
Proof. unfold derived_balance. by intros ->. Qed.

Lemma add_NaN b : add b NaN = NaN.
Proof. by destruct b. Qed.

(** X6.  [NaN] passes the validation of [processTransaction]: it is of
    type number and [NaN <= 0] is false.  With no failure injected, a
    deposit or a withdrawal of [NaN] for a user with a balance row is
    committed; the row is recorded with amount [NaN], and the balance row
    and the derived balance both become [NaN].  From then on neither
    funds check holds anything back: every withdrawal of a positive
    amount is accepted, and the balance stays [NaN]. *)
Theorem NaN_passes_processTransaction (user ty : string) (i : value) (w : world)
    (balance : number) :
  txn w = None → faults w = [] → user ≠ "" → known_type ty →
  users (db w) !! user = Some balance →
  fresh_ids w →
  ∃ row w',
    run (localServer.processTransaction
           {| TransactionService.userId := Str user;
              TransactionService.amount := Num NaN;
              TransactionService.type := Str ty; TransactionService.id := i |}) w
      = (inr row, w') ∧
    Schema.amount row = NaN ∧
    users (db w') !! user = Some NaN ∧
    (run (PostgresRepository.getUserBalance user) w').1 = inr NaN ∧
    ∀ (a : Z) (j : value), (0 < a)%Z →
      ∃ row2 w2,
        run (localServer.processTransaction
               {| TransactionService.userId := Str user;
                  TransactionService.amount := Num (Fin a);
                  TransactionService.type := Str "withdraw";
                  TransactionService.id := j |}) w'
          = (inr row2, w2) ∧
        users (db w2) !! user = Some NaN.
Proof.
  intros Hx Hf Hu Hty Hb Hfresh.
  destruct (processTransaction_succeeds user ty NaN i w balance Hx Hf Hu eq_refl Hb)
    as (w' & E & Hdb & Hx' & Hf' & Hid).
  { apply Hfresh. lia. }
  { destruct Hty as [-> | ->]; [by left|right]. split; [done|]. by destruct balance. }
  eexists _, w'. split; [exact E|]. split; [done|].
  assert (users (db w') !! user = Some NaN) as Hb'.
  { rewrite Hdb. cbn [users]. rewrite lookup_insert_eq.
    destruct (bool_decide _), balance; done. }
  assert (derived_balance user (db w') = NaN) as Hd'.
  { rewrite (derived_balance_ext user _ (applied (db w)
       {| transaction_id := Generated (idseq w); user_id := user;
          Schema.amount := NaN; Schema.type := ty; timestamp := clock w |}))
      by (by rewrite Hdb).
    rewrite derived_balance_applied. cbn [user_id].
    rewrite bool_decide_eq_true_2 by done. unfold case_amount.
    cbn [Schema.type Schema.amount].
    destruct Hty as [-> | ->]; simpl; apply add_NaN. }
  split; [exact Hb'|].
  split; [by rewrite run_PostgresRepository_getUserBalance, <- Hd'|].
  intros a j Ha.
  destruct (processTransaction_succeeds user "withdraw" (Fin a) j w' NaN Hx' Hf' Hu)
    as (w2 & E2 & Hdb2 & _); [| done | | |].
  - simpl. apply bool_decide_eq_false_2. lia.
  - rewrite Hid, Hdb. cbn [transactions]. rewrite fmap_app, elem_of_app.
    intros [Hin | Hin]; [by apply (Hfresh (S (idseq w))); [lia|]|].
    cbn in Hin. apply list_elem_of_singleton in Hin. injection Hin. lia.
  - right. rewrite Hd'. done.
  - eexists _, w2. split; [exact E2|]. rewrite Hdb2. cbn [users].
    by rewrite lookup_insert_eq.
Qed.

(** ** What one call changes *)


(** X11.  A call that returns a transaction has recorded exactly that
    transaction.  Whatever failures were injected, after a successful
    call the returned row belongs to the user the call names; the history
    that [getUserTransactions] answers for that user is the history from
    before with the returned row added (it was not there before); and the
    balance that [getUserBalance] derives is the one from before plus the
    signed amount of the row. *)
Theorem successful_call_appends_its_transaction (c : call) (w : world) row w' :
  txn w = None →
  run (process c) w = (inr row, w') →
  user_id row = user_of c ∧
  ∃ history balance amount,
    (run (PostgresRepository.getUserTransactions (user_of c)) (with_faults w [])).1
      = inr history ∧
    (run (PostgresRepository.getUserBalance (user_of c)) (with_faults w [])).1
      = inr balance ∧
    signed_amount row = Some amount ∧
    (row ∉ history) ∧
    (∃ history',
       (run (PostgresRepository.getUserTransactions (user_of c)) (with_faults w' [])).1
         = inr history' ∧
       history' ≡ₚ row :: history) ∧
    (run (PostgresRepository.getUserBalance (user_of c)) (with_faults w' [])).1
      = inr (add balance amount).
Proof.
  intros Hx Hrun. pose proof (process_outcome c w Hx) as H. rewrite Hrun in H.
  destruct H as (Hu & Hk & Hfresh & Hdb & Hx'). split; [done|].
  rewrite !run_PostgresRepository_getUserTransactions,
    !run_PostgresRepository_getUserBalance by done.
  cbn [fst db with_faults]. rewrite Hdb.
  eexists _, _, (case_amount row). split; [done|]. split; [done|]. split.
  { unfold signed_amount, case_amount. destruct Hk as [-> | ->]; done. }
  split.
  { intros Hin. apply Hfresh. apply selected_of_user in Hin as [_ Hin].
    by apply list_elem_of_fmap_2. }
  split.
  - eexists. split; [done|]. unfold order_by_timestamp_desc.
    rewrite !merge_sort_Permutation. unfold applied. cbn [transactions].
    rewrite of_user_app, bool_decide_eq_true_2 by done.
    by rewrite Permutation_app_comm.
  - f_equal. fold (derived_balance (user_of c) (applied (db w) row)).
    rewrite derived_balance_applied, bool_decide_eq_true_2 by done. done.
Qed.

(** X12.  The two balances of the two stacks stay equal.  Start from
    tables in which every balance row holds what the transactions of its
    user add up to, and make any sequence of calls of either service,
    whether they succeed or fail and whatever failures are injected.
    Then, for every [userId], what [getBalanceByUser] reads from the
    balance row is what [getUserBalance] derives from the transactions;
    for a [userId] that had no balance row at the start
    [getBalanceByUser] still answers [null]. *)
Theorem stored_balance_is_derived_balance (w : world) (calls : list call)
    (userId : string) :
  txn w = None →
  balances_agree (db w) →
  faults (after calls w) = [] →
  ∃ derived,
    run (PostgresRepository.getUserBalance userId) (after calls w)
      = (inr derived, after calls w) ∧
    run (PgTransactionReadRepositoryAdapter.getBalanceByUser userId) (after calls w)
    = (inr (if bool_decide (is_Some (users (db w) !! userId))
            then Num derived else Null), after calls w).
Proof.
  intros Hx H0 Hf.
  pose proof (after_balances_agree calls w Hx H0) as Hagree.
  pose proof (after_users_dom calls w userId Hx) as Hdom.
  eexists. split; [by apply run_PostgresRepository_getUserBalance|].
  rewrite run_getBalanceByUser by done. do 2 f_equal.
  destruct (users (db (after calls w)) !! userId) as [b|] eqn:E.
  - rewrite bool_decide_eq_true_2 by (apply Hdom; eauto).
    f_equal. by apply Hagree.
  - rewrite bool_decide_eq_false_2; [done|].
    intros H%Hdom. by destruct H.
Qed.

(** ** [PgTransactionWriteRepositoryAdapter.saveTransaction] at its edges *)

Lemma PgTransactionWriteRepositoryAdapter_saveTransaction_succeeds tx w :
  txn w = None → faults w = [] →
  transaction_id tx ∉ transaction_id <$> transactions (db w) →
  ∃ w', run (PgTransactionWriteRepositoryAdapter.saveTransaction tx) w = (inr (), w').
Proof.
  intros Hx Hf Hfresh.
  rewrite PgTransactionWriteRepositoryAdapter_saveTransaction_spec by done.
  rewrite bool_decide_eq_false_2 by done. eauto.
Qed.

(** X7.  The write adapter does not validate the type: whatever is not
    ["deposit"] is taken off the balance.  Whatever failures are
    injected, a write of a [tx] whose type is not ["deposit"] that
    completes has appended [tx] and has subtracted its amount from the
    balance row of its user; and when the type is not ["withdraw"]
    either, the balance that [getUserBalance] derives from the
    transactions is as before, so that the two balances part.  With no
    failure injected and an id that is not taken, the write does
    complete. *)
Theorem write_adapter_subtracts_unless_deposit (tx : transactions_row) (w : world) :
  txn w = None → Schema.type tx ≠ "deposit" →
  (∀ w', run (PgTransactionWriteRepositoryAdapter.saveTransaction tx) w = (inr (), w') →
     users (db w') = alter (λ b, sub b (Schema.amount tx)) (user_id tx) (users (db w)) ∧
     transactions (db w') = (transactions (db w) ++ [tx])%list ∧
     (Schema.type tx ≠ "withdraw" →
      (run (PostgresRepository.getUserBalance (user_id tx)) (with_faults w' [])).1
      = (run (PostgresRepository.getUserBalance (user_id tx)) (with_faults w [])).1)) ∧
  (faults w = [] → transaction_id tx ∉ transaction_id <$> transactions (db w) →
   ∃ w', run (PgTransactionWriteRepositoryAdapter.saveTransaction tx) w = (inr (), w')).
Proof.
  intros Hx Hty.
  split; [|by apply PgTransactionWriteRepositoryAdapter_saveTransaction_succeeds].
  intros w' E.
  pose proof (PgTransactionWriteRepositoryAdapter_saveTransaction_outcome tx w Hx) as H.
  rewrite E in H. destruct H as [_ ->]. cbn [db with_faults with_db users transactions].
  rewrite (bool_decide_eq_false_2 _ Hty).
  split; [done|]. split; [done|]. intros Hw.
  rewrite !run_PostgresRepository_getUserBalance by done.
  cbn [fst db with_faults with_db transactions]. f_equal.
  rewrite of_user_app, bool_decide_eq_true_2 by done.
  rewrite !COALESCE_SUM, fmap_app, foldr_app. simpl.
  unfold case_amount at 1. rewrite !bool_decide_eq_false_2 by done. done.
Qed.

(** X8.  The write adapter does not look for the user.  For a [tx] whose
    user has no balance row the [UPDATE] changes no row and raises
    nothing (the store has no constraint that ties a transaction to a
    balance row): a write that completes has appended [tx] and left the
    balance rows as they were.  Afterwards [getBalanceByUser] still
    answers [null] for that user, while [getUserTransactions] returns
    [tx].  With no failure injected and an id that is not taken, the
    write does complete. *)
Theorem write_adapter_records_for_unknown_user (tx : transactions_row) (w : world) :
  txn w = None → users (db w) !! user_id tx = None →
  (∀ w', run (PgTransactionWriteRepositoryAdapter.saveTransaction tx) w = (inr (), w') →
     users (db w') = users (db w) ∧
     transactions (db w') = (transactions (db w) ++ [tx])%list ∧
     (run (PgTransactionReadRepositoryAdapter.getBalanceByUser (user_id tx))
          (with_faults w' [])).1 = inr Null ∧
     ∃ history,
       (run (PostgresRepository.getUserTransactions (user_id tx)) (with_faults w' [])).1
         = inr history ∧ tx ∈ history) ∧
  (faults w = [] → transaction_id tx ∉ transaction_id <$> transactions (db w) →
   ∃ w', run (PgTransactionWriteRepositoryAdapter.saveTransaction tx) w = (inr (), w')).
Proof.
  intros Hx Hu.
  split; [|by apply PgTransactionWriteRepositoryAdapter_saveTransaction_succeeds].
  intros w' E.
  pose proof (PgTransactionWriteRepositoryAdapter_saveTransaction_outcome tx w Hx) as H.
  rewrite E in H. destruct H as [_ ->]. cbn [db with_faults with_db users transactions].
  rewrite alter_absent by done.
  split; [done|]. split; [done|]. split.
  - rewrite run_getBalanceByUser by done.
    cbn [fst db with_faults with_db users]. by rewrite Hu.
  - eexists. rewrite run_PostgresRepository_getUserTransactions by done.
    split; [done|]. cbn [db with_faults with_db transactions].
    unfold order_by_timestamp_desc. rewrite merge_sort_Permutation.
    rewrite of_user_app, bool_decide_eq_true_2 by done. set_solver.
Qed.

Lemma sub_add_cancel b a : sub (add b (Fin a)) (Fin a) = b.
Proof. destruct b; simpl; f_equal; lia. Qed.

(** X9.  Through the write adapter a deposit and a withdrawal of the
    same amount undo each other: when both writes complete, one after
    the other and whatever failures are injected, every balance row is
    as it was before the deposit, and the two transactions stand at the
    end of the table in the order they were written. *)
Theorem write_adapter_deposit_then_withdraw (deposit withdraw : transactions_row)
    (a : Z) (w w1 w2 : world) :
  txn w = None →
  Schema.type deposit = "deposit" → Schema.type withdraw = "withdraw" →
  user_id withdraw = user_id deposit →
  Schema.amount deposit = Fin a → Schema.amount withdraw = Fin a →
  run (PgTransactionWriteRepositoryAdapter.saveTransaction deposit) w = (inr (), w1) →
  run (PgTransactionWriteRepositoryAdapter.saveTransaction withdraw) w1 = (inr (), w2) →
  users (db w2) = users (db w) ∧
  transactions (db w2) = (transactions (db w) ++ [deposit; withdraw])%list.
Proof.
  intros Hx Hd Hw Hu Had Haw E1 E2.
  pose proof (PgTransactionWriteRepositoryAdapter_saveTransaction_outcome deposit w Hx)
    as H1.
  rewrite E1 in H1. destruct H1 as [_ H1].
  pose proof (PgTransactionWriteRepositoryAdapter_saveTransaction_outcome withdraw w1)
    as H2.
  rewrite E2 in H2. destruct H2 as [_ H2]; [by rewrite H1|].
  rewrite H2, H1. cbn [db with_faults with_db users transactions].
  rewrite Hd, Hw, Hu, Had, Haw. simpl bool_decide. cbv iota.
  split; [|by rewrite <- app_assoc].
  apply map_eq. intros k.
  destruct (decide (k = user_id deposit)) as [->|Hk].
  - rewrite !lookup_alter_eq. destruct (users (db w) !! user_id deposit); [|done].
    simpl. by rewrite sub_add_cancel.
  - by rewrite !lookup_alter_ne.
Qed.

(** ** The events of [execute] *)


(** ** The entry points *)

Lemma run_logger_error line w :
  run (transactionLambdaHandler.logger_error line) w
  = (inr (), with_console w (console w ++ [("error", line)])).
Proof. reflexivity. Qed.






Lemma processTransaction_rejects repository eventPublisher
    (d : TransactionService.transactionData) w k :
  TransactionService.amount d ≠ Num NaN →
  spec_validation (TransactionService.userId d) (TransactionService.amount d)
    (TransactionService.type d) = Some k →
  run (TransactionService.processTransaction repository eventPublisher d) w
  = (inl (thrown k), with_console w (console w ++ [("ERROR", logged k)])).
Proof.
  destruct d as [u a t i].
  cbn [TransactionService.userId TransactionService.amount TransactionService.type].
  intros Ha Hk. unfold TransactionService.processTransaction.
  cbn [TransactionService.userId TransactionService.amount TransactionService.type].
  rewrite userId_guard, (amount_guard a Ha).
  unfold spec_validation in Hk.
  destruct (negb (nonempty_string u)); [by injection Hk as <-|].
  destruct (negb (positive_number a)); [by injection Hk as <-|].
  destruct (negb (includes _ t)); [by injection Hk as <-|done].
Qed.

(** The [catch] of the three routes of the local server. *)
Lemma run_route_catch (e : error) w :
  run (let* _ := logError "Failed to process transaction" in
       let* _ := await (console_log "error" e) in
       Ret {| Http.statusCode := 500; Http.body := Http.error_json e |}) w
  = (inr {| Http.statusCode := 500; Http.body := Http.error_json e |},
     with_console w (console w ++ [("ERROR", "Failed to process transaction");
                                   ("error", e)])).
Proof.
  rewrite run_bind. unfold logError. rewrite run_await. cbn [perform].
  rewrite run_bind, run_await. cbn [perform]. rewrite run_Ret. f_equal.
  unfold with_console. cbn. by rewrite <- app_assoc.
Qed.

(** X16.  The route [POST /transaction] of the local server always
    answers, and answers 500 only when nothing was written.  Whatever the
    request body and whatever failures are injected, the route returns a
    response and leaves no unit open: either 200 with
    [{ status: "ok", result }], [result] being a transaction that was
    not in the table and now is, or 500 with the message of the error,
    the committed tables being as before.  A request that fails the
    validation of [processTransaction] is answered with 500 (not with a
    4xx status), after three lines on the console. *)
Theorem post_transaction_answers (body : TransactionService.transactionData) (w : world) :
  txn w = None →
  ∃ response w',
    run (localServer.post_transaction body) w = (inr response, w') ∧
    txn w' = None ∧
    ((∃ row, response = {| Http.statusCode := 200; Http.body := Http.status_ok_json row |} ∧
             (row ∉ transactions (db w)) ∧ db w' = applied (db w) row) ∨
     (∃ e, response = {| Http.statusCode := 500; Http.body := Http.error_json e |} ∧
           db w' = db w)) ∧
    (∀ k, TransactionService.amount body ≠ Num NaN →
       spec_validation (TransactionService.userId body) (TransactionService.amount body)
         (TransactionService.type body) = Some k →
       response = {| Http.statusCode := 500; Http.body := Http.error_json (thrown k) |} ∧
       w' = with_console w
              (console w ++ [("ERROR", logged k);
                             ("ERROR", "Failed to process transaction");
                             ("error", thrown k)])).
Proof.
  intros Hx. unfold localServer.post_transaction.
  rewrite run_try_catch, run_bind.
  pose proof (process_outcome (ProcessTransaction body) w Hx) as H. cbn [process] in H.
  pose proof (processTransaction_rejects localServer.repository
                (Some localServer.eventPublisher) body w) as Hrej.
  fold localServer.processTransaction in Hrej.
  destruct (run (localServer.processTransaction body) w) as [[e|row] w1].
  - rewrite run_route_catch. destruct H as [Hdb Htxn].
    eexists _, _. split; [reflexivity|]. split; [done|]. split; [right; eauto|].
    intros k Ha Hk. specialize (Hrej k Ha Hk). injection Hrej as -> ->.
    split; [done|]. unfold with_console. cbn. by rewrite <- app_assoc.
  - rewrite run_Ret. destruct H as (_ & _ & Hfresh & Hdb & Htxn).
    eexists _, _. split; [reflexivity|]. split; [done|]. split.
    + left. eexists. split; [done|]. split; [|done].
      intros Hin. apply Hfresh. by apply list_elem_of_fmap_2.
    + intros k Ha Hk. by specialize (Hrej k Ha Hk).
Qed.

(** X17.  The routes [GET /transactions/:userId] and
    [GET /balance/:userId] of the local server always answer and write
    nothing.  For a [userId] that is not empty and with no failure
    injected they answer 200 with what
    [PostgresRepository.getUserTransactions] and
    [PostgresRepository.getUserBalance] return, in a world that is as
    before.  Whatever failures are injected each returns a response with
    status 200 or 500 and leaves the tables and the open unit as they
    were. *)
Theorem get_routes_answer (userId : string) (w : world) :
  (userId ≠ "" → faults w = [] →
   ∃ history balance,
     run (PostgresRepository.getUserTransactions userId) w = (inr history, w) ∧
     run (PostgresRepository.getUserBalance userId) w = (inr balance, w) ∧
     run (localServer.get_transactions userId) w
     = (inr {| Http.statusCode := 200; Http.body := Http.transactions_json history |}, w) ∧
     run (localServer.get_balance userId) w
     = (inr {| Http.statusCode := 200; Http.body := Http.balance_json balance |}, w)) ∧
  (∃ response w',
     run (localServer.get_transactions userId) w = (inr response, w') ∧
     db w' = db w ∧ txn w' = txn w ∧
     (Http.statusCode response = 200 ∨ Http.statusCode response = 500)) ∧
  (∃ response w',
     run (localServer.get_balance userId) w = (inr response, w') ∧
     db w' = db w ∧ txn w' = txn w ∧
     (Http.statusCode response = 200 ∨ Http.statusCode response = 500)).
Proof.
  unfold localServer.get_transactions, localServer.get_balance,
    localServer.getUserTransactions, localServer.getUserBalance,
    TransactionService.getUserTransactions, TransactionService.getUserBalance.
  change (Ports.getUserTransactions localServer.repository)
    with PostgresRepository.getUserTransactions.
  change (Ports.getUserBalance localServer.repository)
    with PostgresRepository.getUserBalance.
  cbn [param_text].
  split; [|split].
  - intros Hu Hf. rewrite (truthy_Str _ Hu). cbn [negb].
    eexists _, _.
    split; [by apply run_PostgresRepository_getUserTransactions|].
    split; [by apply run_PostgresRepository_getUserBalance|].
    rewrite !run_try_catch, !run_bind.
    rewrite run_PostgresRepository_getUserTransactions,
      run_PostgresRepository_getUserBalance by done.
    done.
  - rewrite run_try_catch, run_bind.
    destruct (truthy (Str userId)); cbn [negb].
    + unfold PostgresRepository.getUserTransactions.
      destruct w as [d x i c f l m]. destruct f as [|[e|] f]; run_step;
        rewrite ?run_route_catch; eexists _, _; (split; [reflexivity|]); auto.
    + rewrite run_logError_Throw, run_route_catch.
      eexists _, _. split; [reflexivity|]. auto.
  - rewrite run_try_catch, run_bind.
    destruct (truthy (Str userId)); cbn [negb].
    + unfold PostgresRepository.getUserBalance.
      destruct w as [d x i c f l m]. destruct f as [|[e|] f]; run_step;
        rewrite ?run_route_catch; eexists _, _; (split; [reflexivity|]); auto.
    + rewrite run_logError_Throw, run_route_catch.
      eexists _, _. split; [reflexivity|]. auto.
Qed.

(** ** The whole history *)

(** X18.  [getUserTransactions] returns the whole history of a user.
    With no failure injected, [PostgresRepository.getUserTransactions]
    returns every stored transaction of the user exactly once and no
    other, most recent first, and changes nothing; and
    [getTransactionsByUser(userId, limit)] with a [limit] that is not
    below the number of those transactions returns them all as well. *)
Theorem getUserTransactions_is_the_whole_history (userId : string) (w : world) :
  faults w = [] →
  ∃ history,
    run (PostgresRepository.getUserTransactions userId) w = (inr history, w) ∧
    history ≡ₚ filter (λ r, user_id r = userId) (transactions (db w)) ∧
    StronglySorted (λ r1 r2, (timestamp r2 ≤ timestamp r1)%Z) history ∧
    ∀ limit, (length history ≤ limit)%nat →
      ∃ rows,
        run (PgTransactionReadRepositoryAdapter.getTransactionsByUser userId (Some limit)) w
          = (inr rows, w) ∧
        rows ≡ₚ history.
Proof.
  intros Hf. eexists. split; [by apply run_PostgresRepository_getUserTransactions|].
  split; [apply merge_sort_Permutation|].
  split; [apply order_by_timestamp_desc_sorted|].
  intros limit Hlen. eexists. split; [by apply run_getTransactionsByUser|].
  cbn [default]. by rewrite firstn_all2.
Qed.

(** ** The aggregate [User] *)


(** X20.  The domain service over [PostgresRepository] follows the rules
    of the aggregate.  Take a user whose balance row and whose derived
    balance are both [b], with no failure injected and a generated id
    that is not taken.  An operation that [User.deposit] or
    [User.withdraw] accepts on a user with balance [b] is accepted by
    [processTransaction] as well, and the balance row afterwards holds
    the balance of the aggregate; an operation that the aggregate
    rejects [processTransaction] rejects too, and the tables stay as
    they are.  This holds for every amount, [NaN] included. *)
Theorem processTransaction_follows_the_aggregate (user name : string) (b : number)
    (o : operation) (w : world) :
  txn w = None → faults w = [] → user ≠ "" →
  users (db w) !! user = Some b → derived_balance user (db w) = b →
  Generated (idseq w) ∉ transaction_id <$> transactions (db w) →
  match perform_operation {| User.id := user; User.name := name; User.balance := b |} o with
  | inr u' =>
      ∃ row w',
        run (localServer.processTransaction (request_of user o)) w = (inr row, w') ∧
        users (db w') !! user = Some (User.balance u')
  | inl _ =>
      ∃ e w',
        run (localServer.processTransaction (request_of user o)) w = (inl e, w') ∧
        db w' = db w
  end.
Proof.
  intros Hx Hf Hu Hb Hd Hfresh.
  pose proof (processTransaction_outcome (request_of user o) w Hx) as Hout.
  assert ((∀ row w',
             run (localServer.processTransaction (request_of user o)) w = (inr row, w')
             → False) →
          ∃ e w',
            run (localServer.processTransaction (request_of user o)) w = (inl e, w') ∧
            db w' = db w) as Hfail.
  { intros Hno.
    destruct (run (localServer.processTransaction (request_of user o)) w)
      as [[e|row] w'].
    - destruct Hout as (? & _). eauto.
    - by destruct (Hno row w'). }
  destruct o as [a|a]; cbn [perform_operation]; unfold User.deposit, User.withdraw;
    cbn [User.balance Number].
  - destruct (le a (Fin 0)) eqn:Hle.
    + apply Hfail. intros row w' E. rewrite E in Hout. cbv zeta in Hout.
      destruct Hout as (? & _ & Hpos & _). cbn in Hpos. congruence.
    + destruct (processTransaction_succeeds user "deposit" a Undefined w b)
        as (w' & E & Hdb & _); [done..|by left|].
      eexists _, w'. split; [exact E|]. rewrite Hdb. cbn [users User.balance].
      by rewrite lookup_insert_eq.
  - destruct (le a (Fin 0)) eqn:Hle.
    + apply Hfail. intros row w' E. rewrite E in Hout. cbv zeta in Hout.
      destruct Hout as (? & _ & Hpos & _). cbn in Hpos. congruence.
    + destruct (gt a b) eqn:Hgt.
      * apply Hfail. intros row w' E. rewrite E in Hout. cbv zeta in Hout.
        destruct Hout as (b' & Hb' & _ & Hty & _). cbn in Hb', Hty.
        rewrite Hb in Hb'. injection Hb' as <-.
        destruct Hty as [?|(_ & ? & _)]; congruence.
      * destruct (processTransaction_succeeds user "withdraw" a Undefined w b)
          as (w' & E & Hdb & _); [done..| |].
        { right. by rewrite Hd. }
        eexists _, w'. split; [exact E|]. rewrite Hdb. cbn [users User.balance].
        by rewrite lookup_insert_eq.
Qed.

(** ** Two callers at once

    The write adapter changes the balance inside its [UPDATE]; the
    repository reads it, computes and writes it back.  Two callers for
    the same user therefore compose in the first and not in the second. *)

Import TwoWriters.

Ltac upto7 n := destruct n as [|[|[|[|[|[|[|n]]]]]]].

(** One turn from a reachable position leads to the position [advance]
    gives, which is reachable. *)
Lemma advance_step b a1 a2 deposit1 deposit2 p i :
  reachable p = true → (i < 2)%nat →
  reachable (advance p i) = true ∧
  Interleaving.step (at_position b a1 a2 deposit1 deposit2 p) i
  = at_position b a1 a2 deposit1 deposit2 (advance p i).
Proof.
  destruct p as [d0 d1 f]. intros Hr Hi.
  destruct i as [|[|i]]; [| |lia].
  all: upto7 d0; upto7 d1; destruct f; try discriminate Hr.
  all: destruct deposit1, deposit2.
  all: split; vm_compute; reflexivity.
Qed.

(** Where both callers have ended, both writes are in the ledger. *)
Lemma final_position b a1 a2 deposit1 deposit2 p :
  reachable p = true →
  let st := at_position b a1 a2 deposit1 deposit2 p in
  match Interleaving.outcome st 0, Interleaving.outcome st 1 with
  | Some r0, Some r1 =>
      r0 = inr () ∧ r1 = inr () ∧
      users (db (Interleaving.shared st)) !! "u1"
      = Some (if first p then change1 a1 deposit1 (change2 a2 deposit2 b)
              else change2 a2 deposit2 (change1 a1 deposit1 b)) ∧
      transactions (db (Interleaving.shared st))
      = if first p then [tx2 a2 deposit2; tx1 a1 deposit1]
        else [tx1 a1 deposit1; tx2 a2 deposit2]
  | _, _ => True
  end.
Proof.
  destruct p as [d0 d1 f]. intros Hr.
  upto7 d0; upto7 d1; destruct f; try discriminate Hr.
  all: destruct deposit1, deposit2.
  all: vm_compute; first [exact I | repeat split].
Qed.

(** From every reachable position both callers end. *)
Lemma position_finishes b a1 a2 deposit1 deposit2 p :
  reachable p = true →
  let st := Interleaving.schedule (at_position b a1 a2 deposit1 deposit2 p) enough_turns in
  Interleaving.outcome st 0 = Some (inr ()) ∧ Interleaving.outcome st 1 = Some (inr ()).
Proof.
  destruct p as [d0 d1 f]. intros Hr.
  upto7 d0; upto7 d1; destruct f; try discriminate Hr.
  all: destruct deposit1, deposit2.
  all: vm_compute; split; reflexivity.
Qed.

Lemma step_clients_length {A} (st : Interleaving.state A) i :
  length (Interleaving.clients (Interleaving.step st i)) = length (Interleaving.clients st).
Proof.
  unfold Interleaving.step.
  destruct (Interleaving.clients st !! i) as [c|]; [|done].
  destruct (Interleaving.code c) as [| |R a k]; try done.
  destruct (perform a _ _) as [[r w']|]; [|done].
  cbn [Interleaving.clients]. apply length_insert.
Qed.

Lemma schedule_clients_length {A} order : ∀ st : Interleaving.state A,
  length (Interleaving.clients (Interleaving.schedule st order))
  = length (Interleaving.clients st).
Proof.
  induction order as [|i order IH]; intros st; [done|].
  cbn [Interleaving.schedule foldl].
  change (foldl Interleaving.step (Interleaving.step st i) order)
    with (Interleaving.schedule (Interleaving.step st i) order).
  by rewrite IH, step_clients_length.
Qed.

Lemma step_beyond {A} (st : Interleaving.state A) i :
  (length (Interleaving.clients st) ≤ i)%nat → Interleaving.step st i = st.
Proof.
  intros H. unfold Interleaving.step. by rewrite lookup_ge_None_2.
Qed.

Lemma schedule_app {A} (st : Interleaving.state A) order more :
  Interleaving.schedule st (order ++ more)
  = Interleaving.schedule (Interleaving.schedule st order) more.
Proof. apply foldl_app. Qed.

(** Every schedule leads to a reachable position. *)
Lemma schedule_position b a1 a2 deposit1 deposit2 order :
  ∃ p, reachable p = true ∧
       Interleaving.schedule (writers b a1 a2 deposit1 deposit2) order
       = at_position b a1 a2 deposit1 deposit2 p.
Proof.
  induction order as [|i order IH] using rev_ind.
  - by exists {| done0 := 0; done1 := 0; first := false |}.
  - destruct IH as (p & Hr & E). rewrite schedule_app, E.
    cbn [Interleaving.schedule foldl].
    destruct (decide (i < 2)%nat) as [Hi|Hi].
    + destruct (advance_step b a1 a2 deposit1 deposit2 p i Hr Hi) as [Hr' ->]. eauto.
    + exists p. split; [done|]. apply step_beyond.
      unfold at_position. rewrite schedule_clients_length. simpl. lia.
Qed.

Lemma changes_commute a1 a2 deposit1 deposit2 b :
  change1 a1 deposit1 (change2 a2 deposit2 b) = change2 a2 deposit2 (change1 a1 deposit1 b).
Proof.
  unfold change1, change2.
  destruct deposit1, deposit2, b as [z|], a1 as [z1|], a2 as [z2|]; simpl; try done;
    f_equal; lia.
Qed.

(** X22. Two calls of the write adapter's [saveTransaction] for the same
    user, interleaved in any order of turns: when both have ended, both
    have succeeded, the user's stored balance carries both changes and
    both rows are recorded; and from wherever the schedule stops, letting
    each caller run lets both end with success (no deadlock). *)
Theorem concurrent_writes_are_all_applied (b a1 a2 : number) (deposit1 deposit2 : bool)
    (order : list nat) :
  let st := Interleaving.schedule (writers b a1 a2 deposit1 deposit2) order in
  (∀ r0 r1,
     Interleaving.outcome st 0 = Some r0 → Interleaving.outcome st 1 = Some r1 →
     r0 = inr () ∧ r1 = inr () ∧
     users (db (Interleaving.shared st)) !! "u1"
     = Some (change2 a2 deposit2 (change1 a1 deposit1 b)) ∧
     transactions (db (Interleaving.shared st))
       ≡ₚ [tx1 a1 deposit1; tx2 a2 deposit2]) ∧
  (let finished := Interleaving.schedule st enough_turns in
   Interleaving.outcome finished 0 = Some (inr ()) ∧
   Interleaving.outcome finished 1 = Some (inr ())).
Proof.
  cbv zeta.
  destruct (schedule_position b a1 a2 deposit1 deposit2 order) as (p & Hr & ->).
  split; [|by apply position_finishes].
  intros r0 r1 E0 E1.
  pose proof (final_position b a1 a2 deposit1 deposit2 p Hr) as H. cbv zeta in H.
  rewrite E0, E1 in H. destruct H as (-> & -> & -> & ->).
  split; [done|]. split; [done|]. destruct (first p).
  - split; [by rewrite changes_commute|]. apply Permutation_swap.
  - done.
Qed.

(** X21. Two calls of the repository's [saveTransaction] that deposit for
    the same user can be interleaved so that both succeed and yet the
    stored balance carries only one of the two deposits: each reads the
    balance before the other writes it.  [getUserBalance], which sums
    the recorded transactions, reports both. *)
Theorem concurrent_deposits_lose_an_update (b a1 a2 : number) :
  let t1 := {| Ports.userId := "u1"; Ports.amount := a1; Ports.type := "deposit" |} in
  let t2 := {| Ports.userId := "u1"; Ports.amount := a2; Ports.type := "deposit" |} in
  ∃ order : list nat,
    let st := Interleaving.schedule
                (Interleaving.start (ledger_with "u1" b)
                   [PostgresRepository.saveTransaction t1;
                    PostgresRepository.saveTransaction t2]) order in
    (∃ row1 row2,
       Interleaving.outcome st 0 = Some (inr row1) ∧
       Interleaving.outcome st 1 = Some (inr row2) ∧
       transactions (db (Interleaving.shared st)) = [row1; row2] ∧
       Schema.amount row1 = a1 ∧ Schema.amount row2 = a2) ∧
    users (db (Interleaving.shared st)) !! "u1" = Some (add b a2) ∧
    (run (PostgresRepository.getUserBalance "u1") (Interleaving.shared st)).1
    = inr (add a1 a2).
Proof.
  exists [0; 0; 0; 1; 1; 1; 0; 0; 0; 0; 1; 1; 1; 1]%nat.
  split; [|split; vm_compute; reflexivity].
  eexists _, _. vm_compute. repeat split.
Qed.

(** ** The further properties at concrete inputs *)

Lemma ledger_balances_agree user : balances_agree (db (ledger user 0)).
Proof.
  intros u b. cbn [db ledger users]. rewrite lookup_singleton_Some. by intros [_ <-].
Qed.

Lemma ledger_no_negative_balance user (b : Z) :
  (0 ≤ b)%Z → no_negative_balance (db (ledger user b)).
Proof.
  intros Hb u b'. cbn [db ledger users]. rewrite lookup_singleton_Some.
  intros [_ <-]. by apply bool_decide_eq_false_2, Z.le_ngt.
Qed.

Lemma ledger_fresh_ids user b : fresh_ids (ledger user b).
Proof. intros n _. cbn. apply not_elem_of_nil. Qed.

Lemma saveTransaction_rejections_witness :
  let w := ledger "u1" 100 in
  let stranger := {| Ports.userId := "u2"; Ports.amount := Fin 5;
                     Ports.type := "deposit" |} in
  let refund := {| Ports.userId := "u1"; Ports.amount := Fin 5;
                   Ports.type := "refund" |} in
  txn w = None ∧ faults w = [] ∧
  users (db w) !! "u2" = None ∧
  run (PostgresRepository.saveTransaction stranger) w = (inl "User not found", w) ∧
  users (db w) !! "u1" = Some (Fin 100) ∧
  "refund" ≠ "deposit" ∧ "refund" ≠ "withdraw" ∧
  run (PostgresRepository.saveTransaction refund) w = (inl "Invalid transaction type", w) ∧
  gt (Fin 150) (Fin 100) = true ∧
  run (PostgresRepository.saveTransaction withdraw_150) w = (inl "Insufficient balance", w).
Proof.
  cbv zeta.
  assert (users (db (ledger "u1" 100)) !! "u2" = None) as H2 by (vm_compute; reflexivity).
  assert (users (db (ledger "u1" 100)) !! "u1" = Some (Fin 100)) as H1
    by (vm_compute; reflexivity).
  assert ("refund" ≠ "deposit") as Hd by discriminate.
  assert ("refund" ≠ "withdraw") as Hw by discriminate.
  split; [reflexivity|]. split; [reflexivity|]. split; [exact H2|].
  split; [exact (proj1 (saveTransaction_rejections
                          {| Ports.userId := "u2"; Ports.amount := Fin 5;
                             Ports.type := "deposit" |}
                          (ledger "u1" 100) eq_refl eq_refl) H2)|].
  split; [exact H1|]. split; [exact Hd|]. split; [exact Hw|].
  split; [exact (proj1 (proj2 (saveTransaction_rejections
                                 {| Ports.userId := "u1"; Ports.amount := Fin 5;
                                    Ports.type := "refund" |}
                                 (ledger "u1" 100) eq_refl eq_refl) (Fin 100) H1) Hd Hw)|].
  split; [reflexivity|].
  exact (proj2 (proj2 (saveTransaction_rejections withdraw_150
                         (ledger "u1" 100) eq_refl eq_refl) (Fin 100) H1) eq_refl eq_refl).
Defined.

Lemma saveTransaction_accepts_witness :
  let w := ledger "u1" 100 in
  let t := {| Ports.userId := "u1"; Ports.amount := Fin 40; Ports.type := "withdraw" |} in
  let row := {| transaction_id := Generated 0; user_id := "u1"; Schema.amount := Fin 40;
                Schema.type := "withdraw"; timestamp := 0 |} in
  txn w = None ∧ faults w = [] ∧
  users (db w) !! "u1" = Some (Fin 100) ∧
  (Generated 0 ∉ transaction_id <$> transactions (db w)) ∧
  ("withdraw" = "withdraw" ∧ gt (Fin 40) (Fin 100) = false) ∧
  ∃ w', run (PostgresRepository.saveTransaction t) w = (inr row, w') ∧
        users (db w') = <[ "u1" := Fin 60 ]> (users (db w)) ∧
        transactions (db w') = [row] ∧
        txn w' = None ∧ faults w' = [].
Proof.
  cbv zeta.
  assert (users (db (ledger "u1" 100)) !! "u1" = Some (Fin 100)) as H1
    by (vm_compute; reflexivity).
  assert (Generated 0 ∉ transaction_id <$> transactions (db (ledger "u1" 100))) as Hfresh
    by apply not_elem_of_nil.
  split; [reflexivity|]. split; [reflexivity|]. split; [exact H1|].
  split; [exact Hfresh|]. split; [split; reflexivity|].
  exact (saveTransaction_accepts
           {| Ports.userId := "u1"; Ports.amount := Fin 40; Ports.type := "withdraw" |}
           (ledger "u1" 100) (Fin 100) eq_refl eq_refl H1 Hfresh
           (or_intror (conj eq_refl eq_refl))).
Defined.

Lemma withdrawal_above_derived_balance_is_refused_witness :
  let w := ledger "u1" 100 in
  faults w = [] ∧ "u1" ≠ "" ∧ le (Fin 10) (Fin 0) = false ∧
  gt (Fin 10) (derived_balance "u1" (db w)) = true ∧
  users (db w) !! "u1" = Some (Fin 100) ∧
  run (TransactionService.processTransaction localServer.repository None
         (request (Num (Fin 10)) "withdraw" Undefined)) w
  = (inl "Insufficient balance",
     with_console w [("INFO", "Processing transaction");
                     ("ERROR", "Insufficient balance for withdrawal");
                     ("ERROR", "Error processing transaction")]).
Proof.
  cbv zeta.
  assert ("u1" ≠ "") as Hu by discriminate.
  assert (gt (Fin 10) (derived_balance "u1" (db (ledger "u1" 100))) = true) as Hgt
    by (vm_compute; reflexivity).
  assert (users (db (ledger "u1" 100)) !! "u1" = Some (Fin 100)) as H1
    by (vm_compute; reflexivity).
  split; [reflexivity|]. split; [exact Hu|]. split; [reflexivity|].
  split; [exact Hgt|]. split; [exact H1|].
  exact (withdrawal_above_derived_balance_is_refused None "u1" (Fin 10) Undefined
           (ledger "u1" 100) eq_refl Hu eq_refl Hgt).
Defined.

Lemma withdrawal_is_covered_by_both_balances_witness :
  let d := request (Num (Fin 40)) "withdraw" Undefined in
  let withdrawn := run (localServer.processTransaction d) deposited in
  txn deposited = None ∧
  TransactionService.type d = Str "withdraw" ∧
  withdrawn = (inr {| transaction_id := Generated 1; user_id := "u1";
                      Schema.amount := Fin 40; Schema.type := "withdraw";
                      timestamp := 1 |}, withdrawn.2) ∧
  ∃ stored derived,
    users (db deposited) !! "u1" = Some stored ∧
    (run (PostgresRepository.getUserBalance "u1") (with_faults deposited [])).1
      = inr derived ∧
    gt (Fin 40) stored = false ∧
    gt (Fin 40) derived = false ∧
    users (db withdrawn.2) !! "u1" = Some (sub stored (Fin 40)).
Proof.
  cbv zeta.
  assert (txn deposited = None) as Hx by (vm_compute; reflexivity).
  assert (run (localServer.processTransaction (request (Num (Fin 40)) "withdraw" Undefined))
              deposited
          = (inr {| transaction_id := Generated 1; user_id := "u1";
                    Schema.amount := Fin 40; Schema.type := "withdraw"; timestamp := 1 |},
             (run (localServer.processTransaction
                     (request (Num (Fin 40)) "withdraw" Undefined)) deposited).2)) as E
    by (vm_compute; reflexivity).
  split; [exact Hx|]. split; [reflexivity|]. split; [exact E|].
  exact (withdrawal_is_covered_by_both_balances
           (request (Num (Fin 40)) "withdraw" Undefined) deposited _ _ Hx eq_refl E).
Defined.

Lemma processTransaction_keeps_balances_nonnegative_witness :
  let w := ledger "u1" 0 in
  let w' := after (ProcessTransaction <$> three_requests) w in
  txn w = None ∧ no_negative_balance (db w) ∧
  no_negative_balance (db w') ∧
  balances_agree (db w) ∧ faults w' = [] ∧ "u1" ≠ "" ∧
  is_Some (users (db w) !! "u1") ∧
  users (db w') !! "u1" = Some (Fin 60) ∧
  ∃ balance,
    run (localServer.getUserBalance (Str "u1")) w' = (inr balance, w') ∧
    lt balance (Fin 0) = false.
Proof.
  cbv zeta.
  pose proof (ledger_no_negative_balance "u1" 0 (Z.le_refl 0)) as H0.
  pose proof (ledger_balances_agree "u1") as Hagree.
  assert (faults (after (ProcessTransaction <$> three_requests) (ledger "u1" 0)) = [])
    as Hf by (vm_compute; reflexivity).
  assert ("u1" ≠ "") as Hu by discriminate.
  assert (is_Some (users (db (ledger "u1" 0)) !! "u1")) as Hrow
    by (exists (Fin 0); vm_compute; reflexivity).
  assert (users (db (after (ProcessTransaction <$> three_requests) (ledger "u1" 0)))
            !! "u1" = Some (Fin 60)) as H60 by (vm_compute; reflexivity).
  split; [reflexivity|]. split; [exact H0|].
  split; [exact (proj1 (processTransaction_keeps_balances_nonnegative three_requests
                          (ledger "u1" 0) eq_refl H0))|].
  split; [exact Hagree|]. split; [exact Hf|]. split; [exact Hu|].
  split; [exact Hrow|]. split; [exact H60|].
  exact (proj2 (processTransaction_keeps_balances_nonnegative three_requests
                  (ledger "u1" 0) eq_refl H0) Hagree Hf "u1" Hu Hrow).
Defined.

Lemma NaN_passes_processTransaction_witness :
  let w := ledger "u1" 100 in
  txn w = None ∧ faults w = [] ∧ "u1" ≠ "" ∧ known_type "deposit" ∧
  users (db w) !! "u1" = Some (Fin 100) ∧ fresh_ids w ∧
  ∃ row w',
    run (localServer.processTransaction (request (Num NaN) "deposit" Undefined)) w
      = (inr row, w') ∧
    Schema.amount row = NaN ∧
    users (db w') !! "u1" = Some NaN ∧
    (run (PostgresRepository.getUserBalance "u1") w').1 = inr NaN ∧
    ∃ row2 w2,
      run (localServer.processTransaction (request (Num (Fin 1000)) "withdraw" Undefined)) w'
        = (inr row2, w2) ∧
      users (db w2) !! "u1" = Some NaN.
Proof.
  cbv zeta.
  assert ("u1" ≠ "") as Hu by discriminate.
  assert (known_type "deposit") as Hk by (by left).
  assert (users (db (ledger "u1" 100)) !! "u1" = Some (Fin 100)) as H1
    by (vm_compute; reflexivity).
  pose proof (ledger_fresh_ids "u1" 100) as Hfresh.
  split; [reflexivity|]. split; [reflexivity|]. split; [exact Hu|]. split; [exact Hk|].
  split; [exact H1|]. split; [exact Hfresh|].
  destruct (NaN_passes_processTransaction "u1" "deposit" Undefined (ledger "u1" 100)
              (Fin 100) eq_refl eq_refl Hu Hk H1 Hfresh)
    as (row & w' & E & Ha & Hb & Hd & Hall).
  exists row, w'. split; [exact E|]. split; [exact Ha|]. split; [exact Hb|].
  split; [exact Hd|]. exact (Hall 1000%Z Undefined eq_refl).
Defined.

Lemma write_adapter_subtracts_unless_deposit_witness :
  let w := ledger "u1" 100 in
  let written := run (PgTransactionWriteRepositoryAdapter.saveTransaction refund_30) w in
  txn w = None ∧ Schema.type refund_30 ≠ "deposit" ∧
  written = (inr (), written.2) ∧
  users (db written.2) !! "u1" = Some (Fin 70) ∧
  (users (db written.2)
   = alter (λ b, sub b (Schema.amount refund_30)) (user_id refund_30) (users (db w)) ∧
   transactions (db written.2) = (transactions (db w) ++ [refund_30])%list) ∧
  Schema.type refund_30 ≠ "withdraw" ∧
  (run (PostgresRepository.getUserBalance "u1") (with_faults written.2 [])).1
    = (run (PostgresRepository.getUserBalance "u1") (with_faults w [])).1 ∧
  faults w = [] ∧
  (transaction_id refund_30 ∉ transaction_id <$> transactions (db w)) ∧
  ∃ w', run (PgTransactionWriteRepositoryAdapter.saveTransaction refund_30) w = (inr (), w').
Proof.
  cbv zeta.
  assert (Schema.type refund_30 ≠ "deposit") as Hd by discriminate.
  assert (Schema.type refund_30 ≠ "withdraw") as Hw by discriminate.
  assert (run (PgTransactionWriteRepositoryAdapter.saveTransaction refund_30)
              (ledger "u1" 100)
          = (inr (), (run (PgTransactionWriteRepositoryAdapter.saveTransaction refund_30)
                         (ledger "u1" 100)).2)) as E by (vm_compute; reflexivity).
  assert (users (db (run (PgTransactionWriteRepositoryAdapter.saveTransaction refund_30)
                         (ledger "u1" 100)).2) !! "u1" = Some (Fin 70)) as H70
    by (vm_compute; reflexivity).
  assert (transaction_id refund_30
            ∉ transaction_id <$> transactions (db (ledger "u1" 100))) as Hfresh
    by apply not_elem_of_nil.
  pose proof (write_adapter_subtracts_unless_deposit refund_30 (ledger "u1" 100)
                eq_refl Hd) as [Hdone Hdoes].
  destruct (Hdone _ E) as (Husers & Htxs & Hderived).
  split; [reflexivity|]. split; [exact Hd|]. split; [exact E|]. split; [exact H70|].
  split; [exact (conj Husers Htxs)|]. split; [exact Hw|].
  split; [exact (Hderived Hw)|]. split; [reflexivity|]. split; [exact Hfresh|].
  exact (Hdoes eq_refl Hfresh).
Defined.

Lemma write_adapter_records_for_unknown_user_witness :
  let w := ledger "u1" 100 in
  let written :=
    run (PgTransactionWriteRepositoryAdapter.saveTransaction deposit_for_stranger) w in
  txn w = None ∧ users (db w) !! user_id deposit_for_stranger = None ∧
  written = (inr (), written.2) ∧
  (users (db written.2) = users (db w) ∧
   transactions (db written.2) = (transactions (db w) ++ [deposit_for_stranger])%list ∧
   (run (PgTransactionReadRepositoryAdapter.getBalanceByUser "u2")
        (with_faults written.2 [])).1 = inr Null ∧
   ∃ history,
     (run (PostgresRepository.getUserTransactions "u2") (with_faults written.2 [])).1
       = inr history ∧ deposit_for_stranger ∈ history) ∧
  faults w = [] ∧
  (transaction_id deposit_for_stranger ∉ transaction_id <$> transactions (db w)) ∧
  ∃ w', run (PgTransactionWriteRepositoryAdapter.saveTransaction deposit_for_stranger) w
        = (inr (), w').
Proof.
  cbv zeta.
  assert (users (db (ledger "u1" 100)) !! user_id deposit_for_stranger = None) as Hu
    by (vm_compute; reflexivity).
  assert (run (PgTransactionWriteRepositoryAdapter.saveTransaction deposit_for_stranger)
              (ledger "u1" 100)
          = (inr (), (run (PgTransactionWriteRepositoryAdapter.saveTransaction
                             deposit_for_stranger) (ledger "u1" 100)).2)) as E
    by (vm_compute; reflexivity).
  assert (transaction_id deposit_for_stranger
            ∉ transaction_id <$> transactions (db (ledger "u1" 100))) as Hfresh
    by apply not_elem_of_nil.
  pose proof (write_adapter_records_for_unknown_user deposit_for_stranger (ledger "u1" 100)
                eq_refl Hu) as [Hdone Hdoes].
  split; [reflexivity|]. split; [exact Hu|]. split; [exact E|].
  split; [exact (Hdone _ E)|]. split; [reflexivity|]. split; [exact Hfresh|].
  exact (Hdoes eq_refl Hfresh).
Defined.

Lemma write_adapter_deposit_then_withdraw_witness :
  let w := ledger "u1" 0 in
  let back := (run (PgTransactionWriteRepositoryAdapter.saveTransaction withdraw_t2)
                   funded).2 in
  txn w = None ∧
  Schema.type deposit_t1 = "deposit" ∧ Schema.type withdraw_t2 = "withdraw" ∧
  user_id withdraw_t2 = user_id deposit_t1 ∧
  Schema.amount deposit_t1 = Fin 100 ∧ Schema.amount withdraw_t2 = Fin 100 ∧
  run (PgTransactionWriteRepositoryAdapter.saveTransaction deposit_t1) w = (inr (), funded) ∧
  run (PgTransactionWriteRepositoryAdapter.saveTransaction withdraw_t2) funded
    = (inr (), back) ∧
  users (db funded) !! "u1" = Some (Fin 100) ∧
  users (db back) = users (db w) ∧
  transactions (db back) = (transactions (db w) ++ [deposit_t1; withdraw_t2])%list.
Proof.
  cbv zeta.
  assert (run (PgTransactionWriteRepositoryAdapter.saveTransaction deposit_t1)
              (ledger "u1" 0) = (inr (), funded)) as E1 by (vm_compute; reflexivity).
  assert (run (PgTransactionWriteRepositoryAdapter.saveTransaction withdraw_t2) funded
          = (inr (), (run (PgTransactionWriteRepositoryAdapter.saveTransaction withdraw_t2)
                         funded).2)) as E2 by (vm_compute; reflexivity).
  assert (users (db funded) !! "u1" = Some (Fin 100)) as H100
    by (vm_compute; reflexivity).
  split; [reflexivity|]. split; [reflexivity|]. split; [reflexivity|].
  split; [reflexivity|]. split; [reflexivity|]. split; [reflexivity|].
  split; [exact E1|]. split; [exact E2|]. split; [exact H100|].
  exact (write_adapter_deposit_then_withdraw deposit_t1 withdraw_t2 100 (ledger "u1" 0)
           funded _ eq_refl eq_refl eq_refl eq_refl eq_refl eq_refl E1 E2).
Defined.


Lemma successful_call_appends_its_transaction_witness :
  let w := ledger "u1" 0 in
  let c := Execute (command_of (Num (Fin 5)) "deposit" (Str "t1")) in
  let row := {| transaction_id := Supplied "t1"; user_id := "u1"; Schema.amount := Fin 5;
                Schema.type := "deposit"; timestamp := 1 |} in
  let done := run (process c) w in
  txn w = None ∧ done = (inr row, done.2) ∧
  user_id row = user_of c ∧
  ∃ history balance amount,
    (run (PostgresRepository.getUserTransactions (user_of c)) (with_faults w [])).1
      = inr history ∧
    (run (PostgresRepository.getUserBalance (user_of c)) (with_faults w [])).1
      = inr balance ∧
    signed_amount row = Some amount ∧
    (row ∉ history) ∧
    (∃ history',
       (run (PostgresRepository.getUserTransactions (user_of c)) (with_faults done.2 [])).1
         = inr history' ∧
       history' ≡ₚ row :: history) ∧
    (run (PostgresRepository.getUserBalance (user_of c)) (with_faults done.2 [])).1
      = inr (add balance amount).
Proof.
  cbv zeta.
  assert (run (process (Execute (command_of (Num (Fin 5)) "deposit" (Str "t1"))))
              (ledger "u1" 0)
          = (inr {| transaction_id := Supplied "t1"; user_id := "u1";
                    Schema.amount := Fin 5; Schema.type := "deposit"; timestamp := 1 |},
             (run (process (Execute (command_of (Num (Fin 5)) "deposit" (Str "t1"))))
                  (ledger "u1" 0)).2)) as E by (vm_compute; reflexivity).
  split; [reflexivity|]. split; [exact E|].
  exact (successful_call_appends_its_transaction
           (Execute (command_of (Num (Fin 5)) "deposit" (Str "t1")))
           (ledger "u1" 0) _ _ eq_refl E).
Defined.

Lemma stored_balance_is_derived_balance_witness :
  let w := ledger "u1" 0 in
  txn w = None ∧ balances_agree (db w) ∧ faults (after scenario w) = [] ∧
  is_Some (users (db w) !! "u1") ∧
  ∃ derived,
    run (PostgresRepository.getUserBalance "u1") (after scenario w)
      = (inr derived, after scenario w) ∧
    run (PgTransactionReadRepositoryAdapter.getBalanceByUser "u1") (after scenario w)
    = (inr (if bool_decide (is_Some (users (db w) !! "u1"))
            then Num derived else Null), after scenario w).
Proof.
  cbv zeta.
  pose proof (ledger_balances_agree "u1") as Hagree.
  assert (faults (after scenario (ledger "u1" 0)) = []) as Hf
    by (vm_compute; reflexivity).
  assert (is_Some (users (db (ledger "u1" 0)) !! "u1")) as Hrow
    by (exists (Fin 0); vm_compute; reflexivity).
  split; [reflexivity|]. split; [exact Hagree|]. split; [exact Hf|].
  split; [exact Hrow|].
  exact (stored_balance_is_derived_balance (ledger "u1" 0) scenario "u1"
           eq_refl Hagree Hf).
Defined.




Lemma post_transaction_answers_witness :
  let w := ledger "u1" 0 in
  let body := request (Num (Fin (-5))) "deposit" Undefined in
  txn w = None ∧ TransactionService.amount body ≠ Num NaN ∧
  spec_validation (TransactionService.userId body) (TransactionService.amount body)
    (TransactionService.type body) = Some amount_must_be_positive ∧
  ∃ response w',
    run (localServer.post_transaction body) w = (inr response, w') ∧
    txn w' = None ∧
    response = {| Http.statusCode := 500;
                  Http.body := Http.error_json "Amount must be a positive number" |} ∧
    db w' = db w.
Proof.
  cbv zeta.
  assert (TransactionService.amount (request (Num (Fin (-5))) "deposit" Undefined)
          ≠ Num NaN) as Ha by discriminate.
  split; [reflexivity|]. split; [exact Ha|]. split; [reflexivity|].
  destruct (post_transaction_answers (request (Num (Fin (-5))) "deposit" Undefined)
              (ledger "u1" 0) eq_refl) as (response & w' & E & Hx & _ & Hval).
  destruct (Hval amount_must_be_positive Ha eq_refl) as [Hr Hw].
  exists response, w'. split; [exact E|]. split; [exact Hx|]. split; [exact Hr|].
  rewrite Hw. reflexivity.
Defined.

Lemma get_routes_answer_witness :
  let w := after_scenario in
  "u1" ≠ "" ∧ faults w = [] ∧
  (∃ history balance,
     run (PostgresRepository.getUserTransactions "u1") w = (inr history, w) ∧
     run (PostgresRepository.getUserBalance "u1") w = (inr balance, w) ∧
     run (localServer.get_transactions "u1") w
     = (inr {| Http.statusCode := 200; Http.body := Http.transactions_json history |}, w) ∧
     run (localServer.get_balance "u1") w
     = (inr {| Http.statusCode := 200; Http.body := Http.balance_json balance |}, w)) ∧
  (run (localServer.get_balance "u1") w).1
  = inr {| Http.statusCode := 200; Http.body := Http.balance_json (Fin 65) |}.
Proof.
  cbv zeta.
  assert ("u1" ≠ "") as Hu by discriminate.
  assert (faults after_scenario = []) as Hf by (vm_compute; reflexivity).
  split; [exact Hu|]. split; [exact Hf|].
  split; [exact (proj1 (get_routes_answer "u1" after_scenario) Hu Hf)|].
  vm_compute. reflexivity.
Defined.

Lemma getUserTransactions_is_the_whole_history_witness :
  let w := after_scenario in
  faults w = [] ∧
  ∃ history,
    run (PostgresRepository.getUserTransactions "u1") w = (inr history, w) ∧
    history ≡ₚ filter (λ r, user_id r = "u1") (transactions (db w)) ∧
    StronglySorted (λ r1 r2, (timestamp r2 ≤ timestamp r1)%Z) history ∧
    (length history ≤ 10)%nat ∧
    ∃ rows,
      run (PgTransactionReadRepositoryAdapter.getTransactionsByUser "u1" (Some 10%nat)) w
        = (inr rows, w) ∧
      rows ≡ₚ history.
Proof.
  cbv zeta.
  assert (faults after_scenario = []) as Hf by (vm_compute; reflexivity).
  split; [exact Hf|].
  destruct (getUserTransactions_is_the_whole_history "u1" after_scenario Hf)
    as (history & E & Hperm & Hsorted & Hlimit).
  assert (length history ≤ 10)%nat as Hlen.
  { rewrite Hperm. vm_compute. lia. }
  exists history. split; [exact E|]. split; [exact Hperm|]. split; [exact Hsorted|].
  split; [exact Hlen|]. exact (Hlimit 10%nat Hlen).
Defined.


Lemma processTransaction_follows_the_aggregate_witness :
  let w := ledger "u1" 0 in
  txn w = None ∧ faults w = [] ∧ "u1" ≠ "" ∧
  users (db w) !! "u1" = Some (Fin 0) ∧ derived_balance "u1" (db w) = Fin 0 ∧
  (Generated (idseq w) ∉ transaction_id <$> transactions (db w)) ∧
  (∃ row w',
     run (localServer.processTransaction (request_of "u1" (Deposit (Fin 100)))) w
       = (inr row, w') ∧
     users (db w') !! "u1" = Some (Fin 100)) ∧
  (∃ e w',
     run (localServer.processTransaction (request_of "u1" (Withdraw (Fin 100)))) w
       = (inl e, w') ∧
     db w' = db w).
Proof.
  cbv zeta.
  assert ("u1" ≠ "") as Hu by discriminate.
  assert (users (db (ledger "u1" 0)) !! "u1" = Some (Fin 0)) as H0
    by (vm_compute; reflexivity).
  assert (derived_balance "u1" (db (ledger "u1" 0)) = Fin 0) as Hd
    by (vm_compute; reflexivity).
  assert (Generated (idseq (ledger "u1" 0))
            ∉ transaction_id <$> transactions (db (ledger "u1" 0))) as Hfresh
    by apply not_elem_of_nil.
  split; [reflexivity|]. split; [reflexivity|]. split; [exact Hu|]. split; [exact H0|].
  split; [exact Hd|]. split; [exact Hfresh|].
  split.
  - exact (processTransaction_follows_the_aggregate "u1" "Ann" (Fin 0) (Deposit (Fin 100))
             (ledger "u1" 0) eq_refl eq_refl Hu H0 Hd Hfresh).
  - exact (processTransaction_follows_the_aggregate "u1" "Ann" (Fin 0) (Withdraw (Fin 100))
             (ledger "u1" 0) eq_refl eq_refl Hu H0 Hd Hfresh).
Defined.

Lemma concurrent_writes_are_all_applied_witness :
  let st := Interleaving.schedule
              (writers (Fin 0) (Fin 100) (Fin 40) true false)
              [0; 1; 0; 1; 0; 1; 1; 1; 0; 1; 0; 0; 1]%nat in
  Interleaving.outcome st 0 = Some (inr ()) ∧
  Interleaving.outcome st 1 = Some (inr ()) ∧
  users (db (Interleaving.shared st)) !! "u1" = Some (Fin 60) ∧
  transactions (db (Interleaving.shared st))
    ≡ₚ [tx1 (Fin 100) true; tx2 (Fin 40) false].
Proof.
  cbv zeta.
  assert (Interleaving.outcome
            (Interleaving.schedule (writers (Fin 0) (Fin 100) (Fin 40) true false)
               [0; 1; 0; 1; 0; 1; 1; 1; 0; 1; 0; 0; 1]%nat) 0 = Some (inr ())) as E0
    by (vm_compute; reflexivity).
  assert (Interleaving.outcome
            (Interleaving.schedule (writers (Fin 0) (Fin 100) (Fin 40) true false)
               [0; 1; 0; 1; 0; 1; 1; 1; 0; 1; 0; 0; 1]%nat) 1 = Some (inr ())) as E1
    by (vm_compute; reflexivity).
  split; [exact E0|]. split; [exact E1|].
  exact (proj2 (proj2 (proj1 (concurrent_writes_are_all_applied
           (Fin 0) (Fin 100) (Fin 40) true false
           [0; 1; 0; 1; 0; 1; 1; 1; 0; 1; 0; 0; 1]%nat) _ _ E0 E1))).
Defined.
